(** * PKCS#11 engine: URI parsing, secret resolution and the resolution facade

    A shallow embedding of [src/e_pkcs11_eng.c].  C strings are lists of
    characters, the engine context is a record threaded through a small
    state monad whose failure is a crash (a NULL pointer handed to
    [strlen] or dereferenced), and the token module, the host UI, the
    environment and the file system are parameters of the model.

    Conventions, fixed once:
    - allocation ([OPENSSL_strdup], [OPENSSL_malloc], [OPENSSL_zalloc])
      succeeds;
    - a [char *] is [option (list ascii)]: [None] is NULL, [Some b] points
      to the bytes [b] followed by the terminating NUL; [b] itself may hold
      NUL bytes when it was produced by percent-decoding;
    - integers are [Z]; the LP64 widths of [int] and [CK_ULONG] are
      written out where the code converts between them. *)

From Stdlib Require Import ZArith NArith Ascii String Lia.
From stdpp Require Import base tactics option list strings.

Open Scope Z_scope.

(** ** Characters and C strings *)

Abbreviation bytes := (list ascii).

Definition NUL : ascii := "000"%char.

Definition cs (s : string) : bytes := list_ascii_of_string s.

Definition code (c : ascii) : Z := Z.of_N (N_of_ascii c).

Definition ascii_of_Z (z : Z) : ascii := ascii_of_N (Z.to_N (z mod 256)).

(** The string a C function sees behind a pointer: the bytes before the
    first NUL. *)
Fixpoint c_str (b : bytes) : bytes :=
  match b with
  | [] => []
  | c :: r => if decide (c = NUL) then [] else c :: c_str r
  end.

Definition strlen (b : bytes) : nat := length (c_str b).

(** [s[i]] for a NUL-terminated buffer: the terminator sits right after
    the last byte. *)
Definition char_at (s : bytes) (i : nat) : ascii := default NUL (s !! i).

(** [strncmp]: compares at most [n] characters and stops at a NUL. *)
Fixpoint strncmp (s1 s2 : bytes) (n : nat) : Z :=
  match n with
  | O => 0
  | S n' =>
      let c1 := char_at s1 0 in
      let c2 := char_at s2 0 in
      if decide (c1 = c2)
      then if decide (c1 = NUL) then 0 else strncmp (tail s1) (tail s2) n'
      else code c1 - code c2
  end.

Definition isdigit (c : ascii) : bool :=
  (48 <=? code c) && (code c <=? 57).

Definition isxdigit (c : ascii) : bool :=
  isdigit c
  || ((65 <=? code c) && (code c <=? 70))
  || ((97 <=? code c) && (code c <=? 102)).

Definition isspace (c : ascii) : bool :=
  (code c =? 32) || ((9 <=? code c) && (code c <=? 13)).

(** [OPENSSL_hexchar2int]: the value of a hexadecimal digit, -1 otherwise. *)
Definition OPENSSL_hexchar2int (c : ascii) : Z :=
  if isdigit c then code c - 48
  else if (97 <=? code c) && (code c <=? 102) then code c - 87
  else if (65 <=? code c) && (code c <=? 70) then code c - 55
  else -1.

(** ** [urldecode] *)

(** The loop of [urldecode] over the source string [p]; the result is the
    decoded buffer, or [None] for the [return NULL] of a malformed escape. *)
Fixpoint urldecode (p : bytes) : option bytes :=
  match p with
  | [] => Some []
  | c :: rest =>
      if decide (c = "%"%char)
      then match rest with
           | h1 :: h2 :: rest' =>
               if isxdigit h1 && isxdigit h2
               then cons (ascii_of_Z
                            (Z.lor (Z.shiftl (OPENSSL_hexchar2int h1) 4)
                                   (OPENSSL_hexchar2int h2)))
                      <$> urldecode rest'
               else None
           | _ => None
           end
      else cons c <$> urldecode rest
  end.

(** ** [pkcs11_pad] *)

Definition space : ascii := " "%char.

(** First loop: [for (i = 0; i < len; i++) ret[i] = ' '], run from index
    [i] for [n] more iterations. *)
Fixpoint pad_fill (n i : nat) (ret : bytes) : bytes :=
  match n with
  | O => ret
  | S n' => pad_fill n' (S i) (<[i := space]> ret)
  end.

(** Second loop: copy [field] until its terminator or until [len]. *)
Fixpoint pad_copy (field : bytes) (n i : nat) (ret : bytes) : bytes :=
  match n with
  | O => ret
  | S n' =>
      if decide (char_at field i = NUL) then ret
      else pad_copy field n' (S i) (<[i := char_at field i]> ret)
  end.

(** [pkcs11_pad] on a freshly allocated buffer [buf] of [len] bytes whose
    contents are unspecified. *)
Definition pkcs11_pad_in (buf field : bytes) (len : nat) : bytes :=
  pad_copy field len 0 (pad_fill len 0 buf).

Definition OPENSSL_malloc (len : nat) : bytes := replicate len NUL.

Definition pkcs11_pad (field : bytes) (len : nat) : bytes :=
  pkcs11_pad_in (OPENSSL_malloc len) field len.

(** ** [atoi] *)

(** The C library's [atoi], as glibc has it on LP64. *)

Fixpoint skip_space (s : bytes) : bytes :=
  match s with
  | c :: r => if isspace c then skip_space r else s
  | [] => []
  end.

Fixpoint digits_value (acc : Z) (s : bytes) : Z :=
  match s with
  | c :: r => if isdigit c then digits_value (acc * 10 + (code c - 48)) r else acc
  | [] => acc
  end.

Definition LONG_MAX : Z := 2 ^ 63 - 1.
Definition LONG_MIN : Z := - 2 ^ 63.

(** [strtol(s, NULL, 10)]: blanks, an optional sign, decimal digits, the
    value saturated to the range of [long]. *)
Definition strtol (s : bytes) : Z :=
  let s1 := skip_space s in
  let '(neg, s2) :=
    match s1 with
    | c :: r => if decide (c = "-"%char) then (true, r)
                else if decide (c = "+"%char) then (false, r)
                else (false, s1)
    | [] => (false, s1)
    end in
  let v := digits_value 0 s2 in
  let v := if neg then - v else v in
  Z.max LONG_MIN (Z.min LONG_MAX v).

(** Conversion to a 32-bit [int]. *)
Definition to_int (z : Z) : Z := (z + 2 ^ 31) mod 2 ^ 32 - 2 ^ 31.

(** [atoi] is [(int) strtol(s, NULL, 10)]. *)
Definition atoi (s : bytes) : Z := to_int (strtol s).

(** Conversion to [CK_SLOT_ID], an unsigned long. *)
Definition to_CK_ULONG (z : Z) : Z := z mod 2 ^ 64.

(** ** The engine context *)

(** [PKCS11_CTX], as allocated by [pkcs11_ctx_new] and filled in by the
    control commands and the parser.  [model], [serial], [token] and
    [manufacturer] are the fixed-width arrays the parser copies into.
    [ui_method] and [callback_data] are left out: they only reach the host
    UI, which is a parameter. *)
Record PKCS11_CTX := mkCTX {
  id : option bytes;
  idlen : Z;
  label : option bytes;
  pin : option bytes;
  pinlen : Z;
  type : option bytes;
  slotid : Z;
  module_path : option bytes;
  model : bytes;
  serial : bytes;
  token : bytes;
  manufacturer : bytes
}.

(** [pkcs11_ctx_new]: [OPENSSL_zalloc] leaves every pointer NULL and every
    array zeroed. *)
Definition pkcs11_ctx_new : PKCS11_CTX :=
  {| id := None; idlen := 0; label := None; pin := None; pinlen := 0;
     type := None; slotid := 0; module_path := None;
     model := replicate 16 NUL; serial := replicate 16 NUL;
     token := replicate 32 NUL; manufacturer := replicate 32 NUL |}.

Definition set_id (v : option bytes) (c : PKCS11_CTX) : PKCS11_CTX :=
  mkCTX v (idlen c) (label c) (pin c) (pinlen c) (type c) (slotid c)
        (module_path c) (model c) (serial c) (token c) (manufacturer c).
Definition set_idlen (v : Z) (c : PKCS11_CTX) : PKCS11_CTX :=
  mkCTX (id c) v (label c) (pin c) (pinlen c) (type c) (slotid c)
        (module_path c) (model c) (serial c) (token c) (manufacturer c).
Definition set_label (v : option bytes) (c : PKCS11_CTX) : PKCS11_CTX :=
  mkCTX (id c) (idlen c) v (pin c) (pinlen c) (type c) (slotid c)
        (module_path c) (model c) (serial c) (token c) (manufacturer c).
Definition set_pin (v : option bytes) (c : PKCS11_CTX) : PKCS11_CTX :=
  mkCTX (id c) (idlen c) (label c) v (pinlen c) (type c) (slotid c)
        (module_path c) (model c) (serial c) (token c) (manufacturer c).
Definition set_pinlen (v : Z) (c : PKCS11_CTX) : PKCS11_CTX :=
  mkCTX (id c) (idlen c) (label c) (pin c) v (type c) (slotid c)
        (module_path c) (model c) (serial c) (token c) (manufacturer c).
Definition set_type (v : option bytes) (c : PKCS11_CTX) : PKCS11_CTX :=
  mkCTX (id c) (idlen c) (label c) (pin c) (pinlen c) v (slotid c)
        (module_path c) (model c) (serial c) (token c) (manufacturer c).
Definition set_slotid (v : Z) (c : PKCS11_CTX) : PKCS11_CTX :=
  mkCTX (id c) (idlen c) (label c) (pin c) (pinlen c) (type c) v
        (module_path c) (model c) (serial c) (token c) (manufacturer c).
Definition set_module_path (v : option bytes) (c : PKCS11_CTX) : PKCS11_CTX :=
  mkCTX (id c) (idlen c) (label c) (pin c) (pinlen c) (type c) (slotid c)
        v (model c) (serial c) (token c) (manufacturer c).
Definition set_model (v : bytes) (c : PKCS11_CTX) : PKCS11_CTX :=
  mkCTX (id c) (idlen c) (label c) (pin c) (pinlen c) (type c) (slotid c)
        (module_path c) v (serial c) (token c) (manufacturer c).
Definition set_serial (v : bytes) (c : PKCS11_CTX) : PKCS11_CTX :=
  mkCTX (id c) (idlen c) (label c) (pin c) (pinlen c) (type c) (slotid c)
        (module_path c) (model c) v (token c) (manufacturer c).
Definition set_token (v : bytes) (c : PKCS11_CTX) : PKCS11_CTX :=
  mkCTX (id c) (idlen c) (label c) (pin c) (pinlen c) (type c) (slotid c)
        (module_path c) (model c) (serial c) v (manufacturer c).
Definition set_manufacturer (v : bytes) (c : PKCS11_CTX) : PKCS11_CTX :=
  mkCTX (id c) (idlen c) (label c) (pin c) (pinlen c) (type c) (slotid c)
        (module_path c) (model c) (serial c) (token c) v.

(** ** Calls that leave this file *)

(** What the functions of this file ask of their collaborators, in call
    order. *)
Inductive event :=
| EvFileOpen (name : bytes)
| EvGetenv
| EvPrompt
| EvInitialize (path : option bytes)
| EvFinalize
| EvGetSlot
| EvStartSession
| EvLogin (session : Z)
| EvFindPrivateKey (session : Z) (kid : option bytes) (kidlen : Z)
| EvFindPublicKey (session : Z) (kid : option bytes) (kidlen : Z)
| EvLoadPkey (session key : Z)
| EvSearchStart (session : Z)
| EvNextCert (session : Z)
| EvNextObject (session : Z)
| EvCloseOperation (session : Z)
| EvEndSession (session : Z)
| EvPKeyFree
| EvUnregisterLoader.

#[global] Instance event_eq_dec : EqDecision event.
Proof. solve_decision. Defined.

(** The state a call runs in: the context the engine holds and the calls
    made so far. *)
Record machine := mkMachine { ctx : PKCS11_CTX; log : list event }.

(** A computation returns a value and a new state, or crashes. *)
Definition M (A : Type) : Type := machine -> option (A * machine).

#[global] Instance M_ret : MRet M := fun A a m => Some (a, m).
#[global] Instance M_bind : MBind M := fun A B f c m =>
  match c m with
  | Some (a, m') => f a m'
  | None => None
  end.

Definition crash {A} : M A := fun _ => None.
Definition get_ctx : M PKCS11_CTX := fun m => Some (ctx m, m).
Definition modify (f : PKCS11_CTX -> PKCS11_CTX) : M unit :=
  fun m => Some (tt, mkMachine (f (ctx m)) (log m)).
Definition emit (e : event) : M unit :=
  fun m => Some (tt, mkMachine (ctx m) (log m ++ [e])).

(** The host UI as [pkcs11_get_console_pin] uses it: whether [UI_new] and
    [UI_construct_prompt] answer a pointer and [UI_add_input_string]
    non-zero, the result of [UI_process], and the string the user typed
    into the buffer. *)
Record UI := mkUI {
  UI_new : bool;
  UI_construct_prompt : bool;
  UI_add_input_string : bool;
  UI_process : Z;
  UI_input : bytes
}.

(** A certificate as far as client-certificate selection inspects it: its
    issuer name and the answer of [X509_check_purpose] for
    [X509_PURPOSE_SSL_CLIENT]. *)
Record X509 := mkX509 {
  X509_get_issuer_name : bytes;
  X509_check_purpose_ssl_client : Z
}.

(** The token module of [e_pkcs11.c], of which this file only has the
    calls, and the rest of the host:
    - [BIO_file name]: the content of the file, [None] when
      [BIO_new_file] cannot open it;
    - [getenv_PKCS11_MODULE_PATH]: what [getenv] (or [secure_getenv])
      answers;
    - [X509_NAME_cmp]: 0 for equal names;
    - [pkcs11_initialize_rv]: the [CK_RV] of [pkcs11_initialize];
    - [pkcs11_get_slot_ok], [pkcs11_login_ok], [pkcs11_search_start_ok]:
      whether the call answers non-zero;
    - [pkcs11_start_session_handle]: the session written through the
      out-parameter, [None] when the call answers 0;
    - [pkcs11_find_private_key_handle], [pkcs11_find_public_key_handle]:
      the object handle, 0 when there is none;
    - [pkcs11_load_pkey_key]: the key built on the session, [None] for
      NULL;
    - [token_certs]: the certificates [pkcs11_search_next_cert] yields,
      each with its id and the length of the id. *)
Record host := mkHost {
  BIO_file : bytes -> option bytes;
  getenv_PKCS11_MODULE_PATH : option bytes;
  ui : UI;
  X509_NAME_cmp : bytes -> bytes -> Z;
  pkcs11_initialize_rv : option bytes -> Z;
  pkcs11_get_slot_ok : PKCS11_CTX -> bool;
  pkcs11_start_session_handle : PKCS11_CTX -> option Z;
  pkcs11_login_ok : Z -> PKCS11_CTX -> bool;
  pkcs11_find_private_key_handle : Z -> PKCS11_CTX -> Z;
  pkcs11_find_public_key_handle : Z -> PKCS11_CTX -> Z;
  pkcs11_load_pkey_key : Z -> PKCS11_CTX -> Z -> option Z;
  pkcs11_search_start_ok : Z -> PKCS11_CTX -> bool;
  token_certs : list (X509 * bytes * Z)
}.

Definition CKR_OK : Z := 0.

Definition newline : ascii := "010"%char.

(** The bytes of [s] before the first [c]. *)
Fixpoint truncate_at (c : ascii) (s : bytes) : bytes :=
  match s with
  | [] => []
  | x :: r => if decide (x = c) then [] else x :: truncate_at c r
  end.

(** [fgets] into a buffer with room for [n] characters: a line, its
    newline included. *)
Fixpoint fgets (n : nat) (content : bytes) : bytes :=
  match n, content with
  | S n', x :: r => if decide (x = newline) then [x] else x :: fgets n' r
  | _, _ => []
  end.

Section Engine.

Variable H : host.

(** ** [pin_from_file] *)

(** [BIO_gets] on a file reads with [fgets] into the 255-byte buffer and
    returns the [strlen] of what it read.  The buffer is static; the
    parser reads a file only while the context has no PIN, and the value
    returned here is what the context then points to. *)
Definition pin_from_file (filename : bytes) : M (option bytes) :=
  emit (EvFileOpen filename);;
  match BIO_file H filename with
  | None => mret None
  | Some content =>
      let buf := fgets 254 content in
      if Z.of_nat (strlen buf) <=? 0 then mret None
      else mret (Some (truncate_at newline (c_str buf)))
  end.

(** ** [pkcs11_parse_items] *)

(** The body of the [if (p != q)] block: one segment [p], already cut at
    its separator.  The result is [false] for [goto err]/[goto memerr]. *)
Definition pkcs11_parse_item (p : bytes) : M bool :=
  c ← get_ctx;
  if (strncmp p (cs "pin-value=") 10 =? 0) && bool_decide (pin c = None) then
    let p := drop 10 p in
    modify (set_pin (Some p));;
    modify (set_pinlen (Z.of_nat (strlen p)));;
    mret true
  else if (strncmp p (cs "pin-source=") 11 =? 0) && bool_decide (pin c = None) then
    let p := drop 11 p in
    if strncmp p (cs "file:") 5 =? 0 then
      let p := drop 5 p in
      r ← pin_from_file p;
      modify (set_pin r);;
      match r with
      | None => mret false
      | Some b => modify (set_pinlen (Z.of_nat (strlen b)));; mret true
      end
    else mret false
  else if (strncmp p (cs "object=") 7 =? 0) && bool_decide (label c = None) then
    let p := drop 7 p in
    modify (set_label (urldecode p));; mret true
  else if strncmp p (cs "model=") 6 =? 0 then
    let p := drop 6 p in
    match urldecode p with
    | None => crash
    | Some d => modify (set_model (pkcs11_pad d 16));; mret true
    end
  else if strncmp p (cs "serial=") 7 =? 0 then
    let p := drop 7 p in
    match urldecode p with
    | None => crash
    | Some d => modify (set_serial (pkcs11_pad d 16));; mret true
    end
  else if strncmp p (cs "token=") 6 =? 0 then
    let p := drop 6 p in
    match urldecode p with
    | None => crash
    | Some d => modify (set_token (pkcs11_pad d 32));; mret true
    end
  else if strncmp p (cs "manufacturer=") 13 =? 0 then
    let p := drop 13 p in
    match urldecode p with
    | None => crash
    | Some d => modify (set_manufacturer (pkcs11_pad d 32));; mret true
    end
  else if (strncmp p (cs "id=") 3 =? 0) && bool_decide (id c = None) then
    let p := drop 3 p in
    modify (set_id (urldecode p));;
    match urldecode p with
    | None => crash
    | Some d => modify (set_idlen (Z.of_nat (strlen d)));; mret true
    end
  else if (strncmp p (cs "type=") 5 =? 0) && bool_decide (type c = None) then
    let p := drop 5 p in
    modify (set_type (Some p));; mret true
  else if (strncmp p (cs "module-path=") 12 =? 0)
          && bool_decide (module_path c = None) then
    let p := drop 12 p in
    modify (set_module_path (urldecode p));; mret true
  else if (strncmp p (cs "slot-id=") 8 =? 0) && (slotid c =? 0) then
    let p := drop 8 p in
    modify (set_slotid (to_CK_ULONG (atoi p)));; mret true
  else mret true.

(** The scan: [q] is what is left of the string, [p] the segment read so
    far ([p != q] in the source says that it is not empty).  The end of the
    string closes the last segment. *)
Definition parse_items_found (p : bytes) : M bool :=
  if bool_decide (p = []) then mret true else pkcs11_parse_item p.

Fixpoint parse_items_loop (q p : bytes) : M bool :=
  match q with
  | [] => parse_items_found p
  | x :: q' =>
      if bool_decide (x = ";"%char) then
        b ← parse_items_found p;
        if negb b then mret false else parse_items_loop q' []
      else parse_items_loop q' (p ++ [x])
  end.

Definition pkcs11_parse_items (uri : bytes) (store : bool) : M bool :=
  parse_items_loop (c_str uri) [].

(** ** [pkcs11_get_console_pin] *)

Definition pkcs11_get_console_pin : M (option bytes) :=
  emit EvPrompt;;
  let u := ui H in
  if negb (UI_new u) then mret None
  else if negb (UI_construct_prompt u) then mret None
  else if negb (UI_add_input_string u) then mret None
  else if UI_process u =? -2 then mret None
  else if UI_process u =? -1 then mret None
  else mret (Some (UI_input u)).

(** ** [pkcs11_parse] *)

(** Lines 372-389: the criteria, from a [pkcs11:] URI or from a bare id. *)
Definition pkcs11_parse_uri (path : bytes) (store : bool) : M bool :=
  if strncmp path (cs "pkcs11:") 7 =? 0 then
    b ← pkcs11_parse_items (drop 7 path) store;
    if negb b then mret false
    else
      c ← get_ctx;
      if bool_decide (id c = None) && bool_decide (label c = None) && negb store
      then mret false
      else mret true
  else
    let id' := c_str path in
    modify (set_id (urldecode id'));;
    match urldecode id' with
    | None => crash
    | Some d => modify (set_idlen (Z.of_nat (strlen d)));; mret true
    end.

(** Lines 391-405: the module path, from the environment when unset. *)
Definition pkcs11_parse_module_path : M bool :=
  c ← get_ctx;
  if bool_decide (module_path c = None) then
    emit EvGetenv;;
    modify (set_module_path (getenv_PKCS11_MODULE_PATH H));;
    if bool_decide (getenv_PKCS11_MODULE_PATH H = None) then mret false
    else mret true
  else mret true.

(** The test on [ctx->type] of line 408. *)
Definition type_is_private (c : PKCS11_CTX) : bool :=
  match type c with
  | None => false
  | Some t => strncmp t (cs "private") 7 =? 0
  end.

(** Lines 407-417: the PIN, prompted for when none is set. *)
Definition pkcs11_parse_pin (store : bool) : M bool :=
  c ← get_ctx;
  if bool_decide (pin c = None)
     && (negb store || (store && type_is_private c)) then
    r ← pkcs11_get_console_pin;
    match r with
    | None => mret false
    | Some b =>
        modify (set_pin (Some b));;
        modify (set_pinlen (Z.of_nat (strlen b)));;
        mret true
    end
  else mret true.

Definition pkcs11_parse (path : option bytes) (store : bool) : M bool :=
  match path with
  | None => mret false
  | Some path =>
      b ← pkcs11_parse_uri path store;
      if negb b then mret false
      else
        b ← pkcs11_parse_module_path;
        if negb b then mret false
        else pkcs11_parse_pin store
  end.

(** ** [cert_issuer_match] *)

(** [sk_X509_NAME_num]: -1 for a NULL stack. *)
Definition sk_X509_NAME_num (ca_dn : option (list bytes)) : Z :=
  match ca_dn with
  | None => -1
  | Some l => Z.of_nat (length l)
  end.

(** The [for] loop over the entries of the stack. *)
Fixpoint issuer_match_loop (names : list bytes) (x : X509) : bool :=
  match names with
  | [] => false
  | nm :: rest =>
      if X509_NAME_cmp H nm (X509_get_issuer_name x) =? 0 then true
      else issuer_match_loop rest x
  end.

Definition cert_issuer_match (ca_dn : option (list bytes)) (x : X509) : bool :=
  if sk_X509_NAME_num ca_dn <=? 0 then true
  else issuer_match_loop (default [] ca_dn) x.

(** ** The resolution facade *)

(** [ENGINE_get_ex_data (e, pkcs11_idx)] answers the context of the machine
    or NULL. *)
Record ENGINE := mkENGINE { ENGINE_get_ex_data : bool }.

Definition pkcs11_engine_load_private_key (e : ENGINE) (path : option bytes)
  : M (option Z) :=
  if negb (ENGINE_get_ex_data e) then mret None
  else
    b ← pkcs11_parse path false;
    if negb b then mret None
    else
      c ← get_ctx;
      emit (EvInitialize (module_path c));;
      if negb (pkcs11_initialize_rv H (module_path c) =? CKR_OK) then mret None
      else
        emit EvGetSlot;;
        if negb (pkcs11_get_slot_ok H c) then mret None
        else
          emit EvStartSession;;
          match pkcs11_start_session_handle H c with
          | None => mret None
          | Some session =>
              emit (EvLogin session);;
              if negb (pkcs11_login_ok H session c) then mret None
              else
                emit (EvFindPrivateKey session (id c) (idlen c));;
                let key := pkcs11_find_private_key_handle H session c in
                if key =? 0 then mret None
                else
                  emit (EvLoadPkey session key);;
                  mret (pkcs11_load_pkey_key H session c key)
          end.

Definition pkcs11_engine_load_public_key (e : ENGINE) (path : option bytes)
  : M (option Z) :=
  if negb (ENGINE_get_ex_data e) then mret None
  else
    b ← pkcs11_parse path false;
    if negb b then mret None
    else
      c ← get_ctx;
      emit (EvInitialize (module_path c));;
      if negb (pkcs11_initialize_rv H (module_path c) =? CKR_OK) then mret None
      else
        emit EvGetSlot;;
        if negb (pkcs11_get_slot_ok H c) then mret None
        else
          emit EvStartSession;;
          match pkcs11_start_session_handle H c with
          | None => mret None
          | Some session =>
              emit (EvLogin session);;
              if negb (pkcs11_login_ok H session c) then mret None
              else
                emit (EvFindPublicKey session (id c) (idlen c));;
                let key := pkcs11_find_public_key_handle H session c in
                if key =? 0 then mret None
                else
                  emit (EvLoadPkey session key);;
                  mret (pkcs11_load_pkey_key H session c key)
          end.

(** [OSSL_STORE_LOADER_CTX_free] on the store context an engine function
    allocated for its search (never NULL: allocation succeeds):
    [EVP_PKEY_free] of the key the search left in it, and
    [OSSL_STORE_unregister_loader]. *)
Definition free_store_ctx : M unit :=
  emit EvPKeyFree;; emit EvUnregisterLoader.

(** What [pkcs11_load_ssl_client_cert] hands back: its return value and
    the two out-parameters. *)
Record client_cert := mkClientCert {
  ret : Z;
  pcert : option X509;
  pkey : option Z
}.

(** The [for (i = 0;; i++)] loop.  [certs] is what [pkcs11_search_next_cert]
    still has to yield: each call returns the next certificate with its id,
    or reports the end of the enumeration. *)
Fixpoint client_cert_loop (session : Z) (ca_dn : option (list bytes))
    (certs : list (X509 * bytes * Z)) : M client_cert :=
  match certs with
  | [] =>
      emit (EvNextCert session);;
      mret (mkClientCert 0 None None)
  | (x, cid, cidlen) :: rest =>
      emit (EvNextCert session);;
      if cert_issuer_match ca_dn x
         && negb (X509_check_purpose_ssl_client x =? 0) then
        modify (set_id (Some cid));;
        modify (set_idlen cidlen);;
        emit (EvCloseOperation session);;
        c ← get_ctx;
        emit (EvFindPrivateKey session (id c) (idlen c));;
        let key := pkcs11_find_private_key_handle H session c in
        if key =? 0 then mret (mkClientCert 0 (Some x) None)
        else
          emit (EvLoadPkey session key);;
          mret (mkClientCert 1 (Some x) (pkcs11_load_pkey_key H session c key))
      else client_cert_loop session ca_dn rest
  end.

(** [pkcs11_load_ssl_client_cert] down to its [err:] label, which every
    path reaches. *)
Definition load_ssl_client_cert_search (e : ENGINE)
    (ca_dn : option (list bytes)) : M client_cert :=
  let err := mkClientCert 0 None None in
  if negb (ENGINE_get_ex_data e) then mret err
  else
    c ← get_ctx;
    emit (EvInitialize (module_path c));;
    if negb (pkcs11_initialize_rv H (module_path c) =? CKR_OK) then mret err
    else
      emit EvGetSlot;;
      if negb (pkcs11_get_slot_ok H c) then emit EvFinalize;; mret err
      else
        emit EvStartSession;;
        match pkcs11_start_session_handle H c with
        | None => mret err
        | Some session =>
            got_pin ← (if bool_decide (pin c = None) then
                         r ← pkcs11_get_console_pin;
                         match r with
                         | None => mret false
                         | Some b =>
                             modify (set_pin (Some b));;
                             modify (set_pinlen (Z.of_nat (strlen b)));;
                             mret true
                         end
                       else mret true);
            if negb got_pin then mret err
            else
              modify (set_type (Some (cs "cert")));;
              c ← get_ctx;
              emit (EvSearchStart session);;
              if negb (pkcs11_search_start_ok H session c) then mret err
              else client_cert_loop session ca_dn (token_certs H)
        end.

Definition pkcs11_load_ssl_client_cert (e : ENGINE)
    (ca_dn : option (list bytes)) : M client_cert :=
  r ← load_ssl_client_cert_search e ca_dn;
  free_store_ctx;;
  mret r.

(** [pkcs11_engine_load_cert], the control command that loads one
    certificate: the operation of this file that ends its session.
    [first] is the class and certificate [pkcs11_search_next_object]
    reports. *)
Definition CKO_CERTIFICATE : Z := 1.

(** The function down to its [err:] label; the paths through [end:] end
    the session and finalize before they get there. *)
Definition engine_load_cert_search (e : ENGINE) (uri_string : option bytes)
    (first : Z * option X509) : M (Z * option X509) :=
  if negb (ENGINE_get_ex_data e) then mret (0, None)
  else
    b ← pkcs11_parse uri_string true;
    if negb b then mret (0, None)
    else
      c ← get_ctx;
      emit (EvInitialize (module_path c));;
      if negb (pkcs11_initialize_rv H (module_path c) =? CKR_OK)
      then mret (0, None)
      else
        emit EvGetSlot;;
        if negb (pkcs11_get_slot_ok H c) then emit EvFinalize;; mret (0, None)
        else
          emit EvStartSession;;
          match pkcs11_start_session_handle H c with
          | None => emit (EvEndSession 0);; emit EvFinalize;; mret (0, None)
          | Some session =>
              modify (set_type (Some (cs "cert")));;
              c ← get_ctx;
              emit (EvSearchStart session);;
              if negb (pkcs11_search_start_ok H session c) then
                emit (EvEndSession session);; emit EvFinalize;; mret (0, None)
              else
                emit (EvNextObject session);;
                let '(class, cert) := first in
                let r := if class =? CKO_CERTIFICATE then (1, cert)
                         else (0, None) in
                emit (EvEndSession session);; emit EvFinalize;; mret r
          end.

Definition pkcs11_engine_load_cert (e : ENGINE) (uri_string : option bytes)
    (first : Z * option X509) : M (Z * option X509) :=
  r ← engine_load_cert_search e uri_string first;
  free_store_ctx;;
  mret r.

(** ** [pkcs11_ctrl] *)

(** The control commands with their argument; [e_pkcs11.h] numbers them. *)
Inductive PKCS11_CMD :=
| PKCS11_CMD_MODULE_PATH (p : bytes)
| PKCS11_CMD_PIN (p : bytes)
| PKCS11_CMD_LOAD_CERT_CTRL (uri_string : option bytes)
                            (first : Z * option X509)
| PKCS11_CMD_other.

Definition pkcs11_ctrl (e : ENGINE) (cmd : PKCS11_CMD) : M Z :=
  match cmd with
  | PKCS11_CMD_MODULE_PATH p =>
      if negb (ENGINE_get_ex_data e) then crash
      else modify (set_module_path (Some (c_str p)));; mret 1
  | PKCS11_CMD_PIN p =>
      if negb (ENGINE_get_ex_data e) then crash
      else
        modify (set_pin (Some (c_str p)));;
        modify (set_pinlen (Z.of_nat (strlen (c_str p))));;
        mret 1
  | PKCS11_CMD_LOAD_CERT_CTRL uri_string first =>
      r ← pkcs11_engine_load_cert e uri_string first; mret (fst r)
  | PKCS11_CMD_other => mret 1
  end.

End Engine.

(** ** Views used by the statements *)

(** The segments [pkcs11_parse_items] finds, in order: the scan of
    [parse_items_loop] without the processing. *)
Fixpoint segments_loop (q p : bytes) : list bytes :=
  match q with
  | [] => if bool_decide (p = []) then [] else [p]
  | x :: q' =>
      if bool_decide (x = ";"%char)
      then (if bool_decide (p = []) then [] else [p]) ++ segments_loop q' []
      else segments_loop q' (p ++ [x])
  end.

Definition segments (uri : bytes) : list bytes := segments_loop (c_str uri) [].

(** Processing a list of segments, stopping at the first [goto err]. *)
Fixpoint parse_segments (h : host) (segs : list bytes) : M bool :=
  match segs with
  | [] => mret true
  | p :: rest =>
      b ← pkcs11_parse_item h p;
      if negb b then mret false else parse_segments h rest
  end.

(** The calls a computation adds to the log when run from [m]. *)
Definition calls {A} (c : M A) (m : machine) : list event :=
  match c m with
  | Some (_, m') => drop (length (log m)) (log m')
  | None => []
  end.

(** Every call a computation adds to the log satisfies [P]. *)
Definition emits {A} (P : event -> Prop) (c : M A) : Prop :=
  forall m a m', c m = Some (a, m') ->
                 exists evs, log m' = log m ++ evs /\ Forall P evs.

Definition is_end_session (e : event) : bool :=
  match e with EvEndSession _ => true | _ => false end.

Definition not_end_session (e : event) : Prop := is_end_session e = false.

Definition is_file_open (e : event) : bool :=
  match e with EvFileOpen _ => true | _ => false end.

(** What [pin_from_file] returns for a file name. *)
Definition pin_file_line (h : host) (filename : bytes) : option bytes :=
  match BIO_file h filename with
  | None => None
  | Some content =>
      let buf := fgets 254 content in
      if Z.of_nat (strlen buf) <=? 0 then None
      else Some (truncate_at newline (c_str buf))
  end.

(** The attributes whose segment is applied only while the field is NULL. *)
Inductive guarded_attr :=
| A_pin_value | A_pin_source | A_object | A_id | A_type | A_module_path.

Definition guarded_key (a : guarded_attr) : bytes :=
  match a with
  | A_pin_value => cs "pin-value="
  | A_pin_source => cs "pin-source=file:"
  | A_object => cs "object="
  | A_id => cs "id="
  | A_type => cs "type="
  | A_module_path => cs "module-path="
  end.

Definition guarded_field (a : guarded_attr) (c : PKCS11_CTX) : option bytes :=
  match a with
  | A_pin_value | A_pin_source => pin c
  | A_object => label c
  | A_id => id c
  | A_type => type c
  | A_module_path => module_path c
  end.

(** The value a segment gives the field when it is applied. *)
Definition guarded_value (h : host) (a : guarded_attr) (v : bytes)
  : option bytes :=
  match a with
  | A_pin_value | A_type => Some v
  | A_pin_source => pin_file_line h v
  | A_object | A_id | A_module_path => urldecode v
  end.

(** Segments that can write the field of [a]: those the parser tests with
    the same [strncmp]. *)
Definition names_guarded (a : guarded_attr) (p : bytes) : bool :=
  match a with
  | A_pin_value | A_pin_source =>
      (strncmp p (cs "pin-value=") 10 =? 0)
      || (strncmp p (cs "pin-source=") 11 =? 0)
  | A_object => strncmp p (cs "object=") 7 =? 0
  | A_id => strncmp p (cs "id=") 3 =? 0
  | A_type => strncmp p (cs "type=") 5 =? 0
  | A_module_path => strncmp p (cs "module-path=") 12 =? 0
  end.

(** The attributes copied into the fixed-width arrays, without a guard. *)
Inductive padded_attr := A_model | A_serial | A_token | A_manufacturer.

Definition padded_key (a : padded_attr) : bytes :=
  match a with
  | A_model => cs "model="
  | A_serial => cs "serial="
  | A_token => cs "token="
  | A_manufacturer => cs "manufacturer="
  end.

Definition padded_field (a : padded_attr) (c : PKCS11_CTX) : bytes :=
  match a with
  | A_model => model c
  | A_serial => serial c
  | A_token => token c
  | A_manufacturer => manufacturer c
  end.

Definition padded_width (a : padded_attr) : nat :=
  match a with
  | A_model | A_serial => 16%nat
  | A_token | A_manufacturer => 32%nat
  end.

Definition names_padded (a : padded_attr) (p : bytes) : bool :=
  match a with
  | A_model => strncmp p (cs "model=") 6 =? 0
  | A_serial => strncmp p (cs "serial=") 7 =? 0
  | A_token => strncmp p (cs "token=") 6 =? 0
  | A_manufacturer => strncmp p (cs "manufacturer=") 13 =? 0
  end.

(** A segment that repeats what the context already has: it names a
    guarded attribute whose field is set, a PIN source of any kind while
    the PIN is set, or the slot id while that is not 0. *)
Definition repeats (c : PKCS11_CTX) (p : bytes) : Prop :=
  (exists a v, p = guarded_key a ++ v /\ is_Some (guarded_field a c))
  \/ (exists v, p = cs "pin-source=" ++ v /\ is_Some (pin c))
  \/ (exists v, p = cs "slot-id=" ++ v /\ slotid c <> 0).

(** The number a string of decimal digits writes. *)
Definition decimal (d : bytes) : Z :=
  fold_left (fun acc c => acc * 10 + (code c - 48)) d 0.



(** The prompt of [pkcs11_get_console_pin] fails or is cancelled. *)
Definition prompt_fails (u : UI) : Prop :=
  UI_new u = false \/ UI_construct_prompt u = false
  \/ UI_add_input_string u = false
  \/ UI_process u = -2 \/ UI_process u = -1.

(** The test of client-certificate selection: the issuer list is empty
    (or NULL) or holds the issuer, and [X509_check_purpose] answers
    non-zero. *)
Definition issuer_entries (ca_dn : option (list bytes)) : list bytes :=
  default [] ca_dn.





(** ** Hosts and states of the examples *)

Definition ui_answers (input : string) : UI :=
  mkUI true true true 1 (cs input).

Definition ui_cancelled : UI := mkUI true true true (-2) [].

(** A token with one session (handle 7), one private key (handle 5) and
    a PIN file [/p] holding the line 9999. *)
Definition example_host (u : UI) (login_ok : bool)
    (certs : list (X509 * bytes * Z)) : host :=
  {| BIO_file := fun f =>
       if decide (f = cs "/p") then Some (cs "9999" ++ [newline] ++ cs "more")
       else None;
     getenv_PKCS11_MODULE_PATH := None;
     ui := u;
     X509_NAME_cmp := fun a b => if decide (a = b) then 0 else 1;
     pkcs11_initialize_rv := fun _ => CKR_OK;
     pkcs11_get_slot_ok := fun _ => true;
     pkcs11_start_session_handle := fun _ => Some 7;
     pkcs11_login_ok := fun _ _ => login_ok;
     pkcs11_find_private_key_handle := fun _ _ => 5;
     pkcs11_find_public_key_handle := fun _ _ => 6;
     pkcs11_load_pkey_key := fun _ _ k => Some k;
     pkcs11_search_start_ok := fun _ _ => true;
     token_certs := certs |}.

Definition plain_host : host := example_host (ui_answers "4321") true [].

(** A fresh context, and one with the module path and the PIN preset by
    the control commands [MODULE_PATH] and [PIN]. *)
Definition fresh : machine := mkMachine pkcs11_ctx_new [].

Definition preset : machine :=
  mkMachine (set_pinlen 4 (set_pin (Some (cs "0000"))
               (set_module_path (Some (cs "/lib/p11.so")) pkcs11_ctx_new))) [].

Definition with_module_path : machine :=
  mkMachine (set_module_path (Some (cs "/lib/p11.so")) pkcs11_ctx_new) [].

(** A token with three certificates: one of another issuer, two issued
    by [CN=CA]. *)
Definition other_cert : X509 := mkX509 (cs "CN=Other") 1.
Definition ca_cert : X509 := mkX509 (cs "CN=CA") 1.

Definition three_certs : list (X509 * bytes * Z) :=
  [(other_cert, cs "01", 2); (ca_cert, cs "02", 2); (ca_cert, cs "03", 2)].

Definition selecting_host : host :=
  example_host (ui_answers "4321") true three_certs.

(** The same token with a login that fails. *)
Definition login_fails_host : host := example_host (ui_answers "4321") false [].

(** ** The store loader *)

(** [OSSL_STORE_LOADER_CTX], as [OSSL_STORE_LOADER_CTX_new] allocates it. *)
Record OSSL_STORE_LOADER_CTX := mkStoreCtx {
  store_error : Z;
  store_listflag : Z;
  store_eof : Z;
  store_cert : option X509;
  store_key : option Z;
  store_session : Z
}.

Definition OSSL_STORE_LOADER_CTX_new : OSSL_STORE_LOADER_CTX :=
  mkStoreCtx 0 0 0 None None 0.

(** What the store functions ask of their collaborators: the calls of the
    engine functions, and three of their own.  [CallPKeyFree] and
    [CallUnregisterLoader] are the two calls of
    [OSSL_STORE_LOADER_CTX_free], which the engine functions log as
    [EvPKeyFree] and [EvUnregisterLoader]; here the key is the one the
    store context holds. *)
Inductive store_call :=
| Engine (e : event)
| CallNextIds (session : Z)
| CallPKeyFree (key : option Z)
| CallUnregisterLoader.

Record store_machine := mkStoreMachine {
  engine_ctx : PKCS11_CTX;
  trace : list store_call
}.

Definition SM (A : Type) : Type := store_machine -> option (A * store_machine).

#[global] Instance SM_ret : MRet SM := fun A a s => Some (a, s).
#[global] Instance SM_bind : MBind SM := fun A B f c s =>
  match c s with
  | Some (a, s') => f a s'
  | None => None
  end.

(** An engine computation run inside a store function: its calls join the
    trace. *)
Definition lift {A} (c : M A) : SM A := fun s =>
  match c (mkMachine (engine_ctx s) []) with
  | Some (a, m') =>
      Some (a, mkStoreMachine (ctx m') (trace s ++ (Engine <$> log m')))
  | None => None
  end.

Definition call (e : store_call) : SM unit :=
  fun s => Some (tt, mkStoreMachine (engine_ctx s) (trace s ++ [e])).

(** The object the store hands to its caller. *)
Inductive OSSL_STORE_INFO :=
| INFO_NAME (name description : bytes)
| INFO_CERT (x : option X509)
| INFO_PKEY (k : option Z).

Definition CKO_PUBLIC_KEY : Z := 2.

(** What the token module answers to one search call: the end-of-search
    flag, and what it wrote through its out-parameters and into the store
    context. *)
Record search_answer := mkAnswer {
  answer_eof : Z;
  answer_name : bytes;
  answer_description : bytes;
  answer_class : Z;
  answer_cert : option X509;
  answer_key : option Z
}.

Section Store.

Variable H : host.

Definition OSSL_STORE_LOADER_CTX_free (c : option OSSL_STORE_LOADER_CTX)
  : SM unit :=
  match c with
  | None => mret tt
  | Some c => call (CallPKeyFree (store_key c));; call CallUnregisterLoader
  end.

(** [loader_engine] is what [OSSL_STORE_LOADER_get0_engine] answers. *)
Definition pkcs11_store_open (loader_engine : option ENGINE)
    (uri : option bytes) : SM (option OSSL_STORE_LOADER_CTX) :=
  let store_ctx := OSSL_STORE_LOADER_CTX_new in
  let err := OSSL_STORE_LOADER_CTX_free (Some store_ctx);; mret None in
  match loader_engine with
  | None => err
  | Some e =>
      if negb (ENGINE_get_ex_data e) then err
      else
        b ← lift (pkcs11_parse H uri true);
        if negb b then err
        else
          c ← lift get_ctx;
          lift (emit (EvInitialize (module_path c)));;
          if negb (pkcs11_initialize_rv H (module_path c) =? CKR_OK) then err
          else
            lift (emit EvGetSlot);;
            if negb (pkcs11_get_slot_ok H c) then err
            else
              lift (emit EvStartSession);;
              match pkcs11_start_session_handle H c with
              | None => err
              | Some session =>
                  let store_ctx :=
                    mkStoreCtx (store_error store_ctx)
                      (store_listflag store_ctx) (store_eof store_ctx)
                      (store_cert store_ctx) (store_key store_ctx) session in
                  let err :=
                    OSSL_STORE_LOADER_CTX_free (Some store_ctx);; mret None in
                  lift (emit (EvSearchStart session));;
                  if negb (pkcs11_search_start_ok H session c) then err
                  else
                    if bool_decide (label c = None)
                       && bool_decide (id c = None)
                    then mret (Some (mkStoreCtx (store_error store_ctx) 1
                                       (store_eof store_ctx)
                                       (store_cert store_ctx)
                                       (store_key store_ctx)
                                       (store_session store_ctx)))
                    else mret (Some store_ctx)
              end
  end.

Definition pkcs11_store_load_cert (c : OSSL_STORE_LOADER_CTX)
  : OSSL_STORE_INFO := INFO_CERT (store_cert c).

Definition pkcs11_store_load_key (c : OSSL_STORE_LOADER_CTX)
  : OSSL_STORE_INFO := INFO_PKEY (store_key c).

(** One call of [pkcs11_store_load]; [next] is what the search call made
    inside answers. *)
Definition pkcs11_store_load (next : search_answer)
    (c : OSSL_STORE_LOADER_CTX)
  : SM (option OSSL_STORE_INFO * OSSL_STORE_LOADER_CTX) :=
  if negb (store_listflag c =? 0) then
    call (CallNextIds (store_session c));;
    let c := mkStoreCtx (store_error c) (store_listflag c) (answer_eof next)
               (store_cert c) (store_key c) (store_session c) in
    if store_eof c =? 0
    then mret (Some (INFO_NAME (answer_name next) (answer_description next)), c)
    else mret (None, c)
  else
    call (Engine (EvNextObject (store_session c)));;
    let c := mkStoreCtx (store_error c) (store_listflag c) (answer_eof next)
               (answer_cert next) (answer_key next) (store_session c) in
    if store_eof c =? 0 then
      let ret := None in
      let ret := if answer_class next =? CKO_CERTIFICATE
                 then Some (pkcs11_store_load_cert c) else ret in
      let ret := if answer_class next =? CKO_PUBLIC_KEY
                 then Some (pkcs11_store_load_key c) else ret in
      mret (ret, c)
    else mret (None, c).

Definition pkcs11_store_eof (c : OSSL_STORE_LOADER_CTX) : Z := store_eof c.

Definition pkcs11_store_error (c : OSSL_STORE_LOADER_CTX) : Z := 0.

Definition pkcs11_store_close (c : OSSL_STORE_LOADER_CTX) : SM Z :=
  call (Engine (EvEndSession (store_session c)));;
  OSSL_STORE_LOADER_CTX_free (Some c);;
  mret 1.

End Store.

(** The store calls a computation adds to the trace. *)
Definition store_calls {A} (c : SM A) (s : store_machine) : list store_call :=
  match c s with
  | Some (_, s') => drop (length (trace s)) (trace s')
  | None => []
  end.

Definition is_unregister (e : store_call) : bool :=
  match e with
  | CallUnregisterLoader | Engine EvUnregisterLoader => true
  | _ => false
  end.

Definition is_store_end_session (e : store_call) : bool :=
  match e with Engine (EvEndSession _) => true | _ => false end.

Definition is_store_start_session (e : store_call) : bool :=
  match e with Engine EvStartSession => true | _ => false end.

Definition store_occurrences (f : store_call -> bool) (l : list store_call)
  : nat :=
  length (filter (fun e => f e = true) l).

Definition fresh_store : store_machine := mkStoreMachine (ctx preset) [].

(** ** Further views *)

(** The escaped form of a byte string: every byte as [%HH]. *)
Definition hex_digit (n : Z) : ascii :=
  if n <? 10 then ascii_of_Z (48 + n) else ascii_of_Z (55 + n).

Definition urlencode (b : bytes) : bytes :=
  concat ((fun c => ["%"%char; hex_digit (code c / 16);
                     hex_digit (code c mod 16)]) <$> b).

(** The number of [%] characters of a string. *)
Definition escapes (p : bytes) : nat :=
  length (filter (fun c => c = "%"%char) p).

(** A segment one of the eleven [strncmp] tests of the parser accepts. *)
Definition recognized (p : bytes) : bool :=
  (strncmp p (cs "pin-value=") 10 =? 0)
  || (strncmp p (cs "pin-source=") 11 =? 0)
  || (strncmp p (cs "object=") 7 =? 0)
  || (strncmp p (cs "model=") 6 =? 0)
  || (strncmp p (cs "serial=") 7 =? 0)
  || (strncmp p (cs "token=") 6 =? 0)
  || (strncmp p (cs "manufacturer=") 13 =? 0)
  || (strncmp p (cs "id=") 3 =? 0)
  || (strncmp p (cs "type=") 5 =? 0)
  || (strncmp p (cs "module-path=") 12 =? 0)
  || (strncmp p (cs "slot-id=") 8 =? 0).

(** The lengths kept beside the id and the PIN are those of the strings. *)
Definition lengths_ok (c : PKCS11_CTX) : Prop :=
  (forall b, id c = Some b -> idlen c = Z.of_nat (strlen b))
  /\ (forall b, pin c = Some b -> pinlen c = Z.of_nat (strlen b)).

Definition is_finalize (e : event) : bool :=
  match e with EvFinalize => true | _ => false end.

Definition is_prompt (e : event) : bool :=
  match e with EvPrompt => true | _ => false end.

(** The calls of a parse: files first, then the environment at most once,
    then the prompt at most once. *)
Definition parse_calls_shape (evs : list event) : Prop :=
  exists files env prompt,
    evs = files ++ env ++ prompt
    /\ Forall (fun e => is_file_open e = true) files
    /\ (env = [] \/ env = [EvGetenv])
    /\ (prompt = [] \/ prompt = [EvPrompt]).

(** Segments written back as a string, separated by [;]. *)
Fixpoint join_segments (l : list bytes) : bytes :=
  match l with
  | [] => []
  | [s] => s
  | s :: r => s ++ ";"%char :: join_segments r
  end.

(** What every segment the scan finds looks like. *)
Definition segment_ok (s : bytes) : Prop :=
  s <> [] /\ (";"%char ∉ s) /\ (NUL ∉ s).

Definition opens_file (e : event) : Prop := is_file_open e = true.

Definition is_start_session (e : event) : bool :=
  match e with EvStartSession => true | _ => false end.

Definition is_get_slot (e : event) : bool :=
  match e with EvGetSlot => true | _ => false end.

(** The calls a parse can make. *)
Definition is_parse_call (e : event) : bool :=
  match e with EvFileOpen _ | EvGetenv | EvPrompt => true | _ => false end.

Definition parse_call (e : event) : Prop := is_parse_call e = true.

(** How often an event of a kind occurs. *)
Definition occurrences (f : event -> bool) (l : list event) : nat :=
  length (filter (fun e => f e = true) l).

(** * Properties *)

(** ** The model on the examples of the specification *)

Example urldecode_space : urldecode (cs "My%20Key") = Some (cs "My Key").
Proof. reflexivity. Qed.

Example urldecode_bad_escape : urldecode (cs "%G1") = None.
Proof. reflexivity. Qed.

Example segments_skip_empty :
  segments (cs "id=01;;type=cert;") = [cs "id=01"; cs "type=cert"].
Proof. reflexivity. Qed.

Example token_ABC_padded :
  pkcs11_pad (cs "ABC") 32 = cs "ABC" ++ replicate 29 space.
Proof. reflexivity. Qed.

Example bare_identifier :
  exists m', pkcs11_parse plain_host (Some (cs "deadbeef")) false preset
             = Some (true, m')
             /\ id (ctx m') = Some (cs "deadbeef")
             /\ label (ctx m') = None /\ type (ctx m') = None.
Proof. eexists. split; [vm_compute; reflexivity|]. by repeat split. Qed.

Example duplicate_id_through_parse :
  exists m', pkcs11_parse plain_host (Some (cs "pkcs11:id=01;id=02")) false preset
             = Some (true, m')
             /\ id (ctx m') = Some (cs "01") /\ idlen (ctx m') = 2.
Proof. eexists. split; [vm_compute; reflexivity|]. by split. Qed.

(** ** The monad *)

Ltac munfold :=
  unfold mbind, M_bind, mret, M_ret, modify, emit, get_ctx, crash in *.

Lemma bind_ret_bool (c : M bool) (m : machine) :
  (b ← c; if negb b then mret false else mret true) m = c m.
Proof. munfold. destruct (c m) as [[[] ?]|]; reflexivity. Qed.

Lemma machine_eta (m : machine) : mkMachine (ctx m) (log m) = m.
Proof. by destruct m. Qed.

(** ** C strings *)

Lemma strncmp_app_key (k v : bytes) :
  NUL ∉ k -> strncmp (k ++ v) k (length k) = 0.
Proof.
  induction k as [|x k IH]; intros Hk; [done|].
  simpl. unfold char_at. simpl.
  destruct (decide (x = x)); [|congruence].
  destruct (decide (x = NUL)) as [->|_].
  - exfalso. apply Hk. left.
  - apply IH. intros Hin. apply Hk. by right.
Qed.

Lemma strncmp_key_prefix (p k : bytes) :
  NUL ∉ k -> strncmp p k (length k) = 0 -> exists v, p = k ++ v.
Proof.
  revert p. induction k as [|x k IH]; intros p Hk Hc.
  - by exists p.
  - simpl in Hc. unfold char_at in Hc. simpl in Hc.
    assert (Hx : x <> NUL) by (intros ->; apply Hk; left).
    destruct p as [|y p]; simpl in Hc.
    + destruct (decide (NUL = x)) as [E|E]; [congruence|].
      exfalso. revert Hc. clear -E. unfold code, NUL.
      destruct x as [[] [] [] [] [] [] [] []]; vm_compute; intros Hc;
        first [discriminate Hc | by destruct E].
    + destruct (decide (y = x)) as [->|E].
      * destruct (decide (x = NUL)); [congruence|].
        destruct (IH p) as [v ->]; [|done|by exists v].
        intros Hin. apply Hk. by right.
      * exfalso. apply E. clear -Hc. unfold code in Hc.
        assert (N_of_ascii y = N_of_ascii x) as HN by lia.
        rewrite <- (ascii_N_embedding y), <- (ascii_N_embedding x).
        by rewrite HN.
Qed.

Lemma c_str_no_NUL (b : bytes) : NUL ∉ b -> c_str b = b.
Proof.
  induction b as [|x b IH]; intros Hb; [done|].
  simpl. destruct (decide (x = NUL)) as [->|_].
  - exfalso. apply Hb. left.
  - f_equal. apply IH. intros Hin. apply Hb. by right.
Qed.

Lemma c_str_app_NUL_free (a b : bytes) :
  NUL ∉ a -> c_str (a ++ b) = a ++ c_str b.
Proof.
  induction a as [|x a IH]; intros Ha; [done|].
  simpl. destruct (decide (x = NUL)) as [->|_].
  - exfalso. apply Ha. left.
  - f_equal. apply IH. intros Hin. apply Ha. by right.
Qed.

(** ** [pkcs11_pad] *)

Lemma pad_fill_app (n : nat) : forall (pre junk : bytes),
  length junk = n ->
  pad_fill n (length pre) (pre ++ junk) = pre ++ replicate n space.
Proof.
  induction n as [|n IH]; intros pre junk Hlen.
  - destruct junk; [done | discriminate].
  - destruct junk as [|x junk]; [discriminate|].
    simpl. replace (length pre) with (length pre + 0)%nat at 2 by lia.
    rewrite insert_app_r. simpl.
    specialize (IH (pre ++ [space]) junk).
    rewrite length_app in IH. simpl in IH.
    replace (length pre + 1)%nat with (S (length pre)) in IH by lia.
    rewrite <- !app_assoc in IH. simpl in IH. apply IH.
    simpl in Hlen. lia.
Qed.

Lemma char_at_drop (s : bytes) (i : nat) :
  char_at s i = NUL -> c_str (drop i s) = [].
Proof.
  unfold char_at. intros Hc.
  destruct (s !! i) as [c|] eqn:E.
  - simpl in Hc. subst c. rewrite (drop_S _ _ _ E). simpl.
    destruct (decide (NUL = NUL)); [done | congruence].
  - rewrite drop_ge; [done|]. by apply lookup_ge_None.
Qed.

Lemma char_at_drop_ne (s : bytes) (i : nat) :
  char_at s i <> NUL ->
  c_str (drop i s) = char_at s i :: c_str (drop (S i) s).
Proof.
  unfold char_at. intros Hc.
  destruct (s !! i) as [c|] eqn:E; simpl in *; [|congruence].
  rewrite (drop_S _ _ _ E). simpl.
  destruct (decide (c = NUL)); [congruence | done].
Qed.

Lemma pad_copy_app (field : bytes) (n : nat) : forall (pre : bytes),
  pad_copy field n (length pre) (pre ++ replicate n space)
  = pre ++ take n (c_str (drop (length pre) field))
        ++ replicate (n - strlen (drop (length pre) field)) space.
Proof.
  induction n as [|n IH]; intros pre.
  - simpl. by rewrite app_nil_r.
  - simpl pad_copy.
    destruct (decide (char_at field (length pre) = NUL)) as [E|E].
    + unfold strlen. rewrite (char_at_drop _ _ E). by simpl.
    + unfold strlen. rewrite (char_at_drop_ne _ _ E).
      replace (length pre) with (length pre + 0)%nat at 2 by lia.
      rewrite insert_app_r. simpl.
      specialize (IH (pre ++ [char_at field (length pre)])).
      rewrite length_app in IH. simpl in IH.
      replace (length pre + 1)%nat with (S (length pre)) in IH by lia.
      rewrite <- !app_assoc in IH. simpl in IH. exact IH.
Qed.

(** Whatever the allocated buffer held, the result is the string cut to
    [len] bytes and filled up with spaces. *)
Lemma pkcs11_pad_in_eq (buf field : bytes) (len : nat) :
  length buf = len ->
  pkcs11_pad_in buf field len
  = take len (c_str field) ++ replicate (len - strlen field) space.
Proof.
  intros Hlen. unfold pkcs11_pad_in.
  pose proof (pad_fill_app len [] buf Hlen) as Hf. simpl in Hf. rewrite Hf.
  pose proof (pad_copy_app field len []) as Hc. simpl in Hc.
  by rewrite drop_0 in Hc.
Qed.

Lemma pkcs11_pad_eq (s : bytes) (w : nat) :
  pkcs11_pad s w = take w (c_str s) ++ replicate (w - strlen s) space.
Proof.
  apply pkcs11_pad_in_eq. unfold OPENSSL_malloc. apply length_replicate.
Qed.

(** C10.  For a string [s] (the bytes of the buffer before its NUL) and a
    width [w], [pkcs11_pad] returns exactly [w] bytes: the first
    [min (strlen s) w] bytes of [s], then spaces.  A string of [w] bytes
    or more is cut to its first [w] bytes, so it pads to any [w]-byte
    descriptor that starts with the same [w] bytes. *)
Theorem pkcs11_pad_truncates (s : bytes) (w : nat) :
  length (pkcs11_pad s w) = w
  /\ pkcs11_pad s w
     = take (Nat.min (strlen s) w) (c_str s)
         ++ replicate (w - Nat.min (strlen s) w) space
  /\ (forall d : bytes, length d = w -> take w (c_str s) = d ->
        pkcs11_pad s w = d).
Proof.
  pose proof (pkcs11_pad_eq s w) as E.
  split; [|split].
  - rewrite E, length_app, length_take, length_replicate. unfold strlen. lia.
  - rewrite E. unfold strlen.
    destruct (decide (length (c_str s) <= w)%nat).
    + rewrite Nat.min_l by lia. rewrite take_ge by lia.
      by rewrite firstn_all.
    + rewrite Nat.min_r by lia. do 2 f_equal. lia.
  - intros d Hd Ht. rewrite E.
    assert (w <= strlen s)%nat.
    { unfold strlen. rewrite <- Ht in Hd. rewrite length_take in Hd. lia. }
    replace (w - strlen s)%nat with 0%nat by lia. simpl.
    by rewrite app_nil_r.
Qed.

(** The token criterion [ABCDEFGHIJKLMNOPQRSTUVWXYZ0123456789] of 36
    bytes equals the 32-byte descriptor made of its first 32 bytes. *)
Lemma pkcs11_pad_truncates_witness :
  length (cs "ABCDEFGHIJKLMNOPQRSTUVWXYZ012345") = 32%nat
  /\ pkcs11_pad (cs "ABCDEFGHIJKLMNOPQRSTUVWXYZ0123456789") 32
     = cs "ABCDEFGHIJKLMNOPQRSTUVWXYZ012345".
Proof.
  split; [reflexivity|].
  apply (pkcs11_pad_truncates (cs "ABCDEFGHIJKLMNOPQRSTUVWXYZ0123456789") 32);
    reflexivity.
Defined.

(** ** One segment *)

Lemma pin_from_file_run h f m :
  pin_from_file h f m
  = Some (pin_file_line h f, mkMachine (ctx m) (log m ++ [EvFileOpen f])).
Proof.
  unfold pin_from_file, pin_file_line. munfold. simpl.
  destruct (BIO_file h f); [|done]. by case_match.
Qed.

Ltac item_cases H :=
  unfold pkcs11_parse_item in H; munfold;
  repeat match type of H with
  | context [pin_from_file ?h ?f ?m] => rewrite (pin_from_file_run h f m) in H
  | context [if ?b then _ else _] => destruct b eqn:?
  | context [match ?x with Some _ => _ | None => _ end] => destruct x eqn:?
  end; simplify_eq/=.

Ltac split_guards :=
  repeat match goal with
  | H : _ && _ = true |- _ => apply andb_prop in H; destruct H
  | H : _ || _ = false |- _ => apply orb_false_elim in H; destruct H
  | H : bool_decide _ = true |- _ => apply bool_decide_eq_true in H
  | H : bool_decide _ = false |- _ => apply bool_decide_eq_false in H
  end.

Section one_segment.

Local Opaque strncmp urldecode pkcs11_pad atoi.

(** A field that is set is never written again. *)
Lemma item_preserves_guarded h a p m b m' v :
  pkcs11_parse_item h p m = Some (b, m') ->
  guarded_field a (ctx m) = Some v ->
  guarded_field a (ctx m') = Some v.
Proof.
  intros Hrun Hf. item_cases Hrun.
  all: destruct a; simpl in *; try done.
  all: split_guards; congruence.
Qed.

Lemma item_preserves_slotid h p m b m' :
  pkcs11_parse_item h p m = Some (b, m') ->
  slotid (ctx m) <> 0 ->
  slotid (ctx m') = slotid (ctx m).
Proof.
  intros Hrun Hs. item_cases Hrun; try done.
  split_guards. lia.
Qed.

(** A segment that does not name an attribute leaves its field alone. *)
Lemma item_untouched_guarded h a p m b m' :
  names_guarded a p = false ->
  pkcs11_parse_item h p m = Some (b, m') ->
  guarded_field a (ctx m') = guarded_field a (ctx m).
Proof.
  intros Hn Hrun. item_cases Hrun.
  all: destruct a; simpl in *; try done.
  all: split_guards; congruence.
Qed.

Lemma item_untouched_padded h a p m b m' :
  names_padded a p = false ->
  pkcs11_parse_item h p m = Some (b, m') ->
  padded_field a (ctx m') = padded_field a (ctx m).
Proof.
  intros Hn Hrun. item_cases Hrun.
  all: destruct a; simpl in *; try done.
  all: split_guards; congruence.
Qed.

(** With a PIN in the context no segment opens a file. *)
Lemma item_pin_set_log h p m b m' v :
  pkcs11_parse_item h p m = Some (b, m') ->
  pin (ctx m) = Some v ->
  log m' = log m.
Proof.
  intros Hrun Hf. item_cases Hrun; try done.
  all: split_guards; congruence.
Qed.

(** Only the two PIN attributes open a file. *)
Lemma item_pin_untouched_log h p m b m' :
  names_guarded A_pin_value p = false ->
  pkcs11_parse_item h p m = Some (b, m') ->
  log m' = log m.
Proof.
  intros Hn Hrun. item_cases Hrun; try done.
  all: simpl in Hn; split_guards; congruence.
Qed.

(** A segment only ever opens files. *)
Lemma item_log h p m b m' :
  pkcs11_parse_item h p m = Some (b, m') ->
  exists evs, log m' = log m ++ evs /\ Forall (fun e => is_file_open e = true) evs.
Proof.
  intros Hrun. item_cases Hrun.
  all: first [ by (exists []; rewrite app_nil_r)
             | eexists [_]; split; [done|]; by repeat constructor ].
Qed.

End one_segment.

Section one_named_segment.

Local Opaque urldecode pkcs11_pad atoi.

(** The first segment naming a guarded attribute gives the field its
    value. *)
Lemma item_sets_guarded h a v m b m' :
  guarded_field a (ctx m) = None ->
  pkcs11_parse_item h (guarded_key a ++ v) m = Some (b, m') ->
  guarded_field a (ctx m') = guarded_value h a v.
Proof.
  intros Hf Hrun. unfold pkcs11_parse_item in Hrun. munfold.
  destruct a; simpl in Hf, Hrun; rewrite ?drop_0 in Hrun;
    rewrite Hf in Hrun; simpl in Hrun;
    rewrite ?pin_from_file_run in Hrun; simpl in Hrun;
    repeat case_match; simplify_eq/=; done.
Qed.

Lemma item_pin_value_log h v m b m' :
  pin (ctx m) = None ->
  pkcs11_parse_item h (cs "pin-value=" ++ v) m = Some (b, m') ->
  b = true /\ log m' = log m.
Proof.
  intros Hf Hrun. unfold pkcs11_parse_item in Hrun. munfold.
  simpl in Hrun. rewrite Hf in Hrun. simpl in Hrun. by simplify_eq/=.
Qed.

Lemma item_pin_source_log h v m b m' :
  pin (ctx m) = None ->
  pkcs11_parse_item h (cs "pin-source=file:" ++ v) m = Some (b, m') ->
  log m' = log m ++ [EvFileOpen v].
Proof.
  intros Hf Hrun. unfold pkcs11_parse_item in Hrun. munfold.
  simpl in Hrun. rewrite ?drop_0 in Hrun. rewrite Hf in Hrun. simpl in Hrun.
  rewrite pin_from_file_run in Hrun. simpl in Hrun.
  repeat case_match; by simplify_eq/=.
Qed.

(** Every segment naming a padded attribute overwrites the array. *)
Lemma item_sets_padded h a v m b m' :
  pkcs11_parse_item h (padded_key a ++ v) m = Some (b, m') ->
  exists d, urldecode v = Some d
            /\ padded_field a (ctx m') = pkcs11_pad d (padded_width a).
Proof.
  intros Hrun. unfold pkcs11_parse_item in Hrun. munfold.
  destruct a; simpl in Hrun; rewrite ?drop_0 in Hrun;
    repeat case_match; simplify_eq/=; eauto.
Qed.

(** A segment naming a guarded attribute whose field is set is skipped:
    it is no error and changes nothing. *)
Lemma item_repeated_guarded h a v w m :
  guarded_field a (ctx m) = Some w ->
  pkcs11_parse_item h (guarded_key a ++ v) m = Some (true, m).
Proof.
  intros Hf. unfold pkcs11_parse_item. munfold.
  destruct a; simpl in Hf |- *; rewrite ?drop_0; rewrite Hf; reflexivity.
Qed.

Lemma item_repeated_pin_source h v w m :
  pin (ctx m) = Some w ->
  pkcs11_parse_item h (cs "pin-source=" ++ v) m = Some (true, m).
Proof.
  intros Hf. unfold pkcs11_parse_item. munfold. simpl. by rewrite Hf.
Qed.

Lemma item_repeated_slot_id h v m :
  slotid (ctx m) <> 0 ->
  pkcs11_parse_item h (cs "slot-id=" ++ v) m = Some (true, m).
Proof.
  intros Hs. unfold pkcs11_parse_item. munfold. simpl.
  apply Z.eqb_neq in Hs. by rewrite Hs.
Qed.

Lemma item_repeats h p m :
  repeats (ctx m) p -> pkcs11_parse_item h p m = Some (true, m).
Proof.
  intros [(a & v & -> & [w Hf]) | [(v & -> & [w Hf]) | (v & -> & Hs)]].
  - by apply (item_repeated_guarded h a v w).
  - by apply (item_repeated_pin_source h v w).
  - by apply item_repeated_slot_id.
Qed.

(** The first segment naming a guarded attribute is applied. *)
Lemma item_applies_guarded h a v d m :
  guarded_field a (ctx m) = None ->
  guarded_value h a v = Some d ->
  exists m1, pkcs11_parse_item h (guarded_key a ++ v) m = Some (true, m1)
             /\ guarded_field a (ctx m1) = Some d.
Proof.
  intros Hf Hv. unfold pkcs11_parse_item. munfold.
  destruct a; simpl in Hf, Hv |- *; rewrite ?drop_0; rewrite Hf; simpl;
    rewrite ?pin_from_file_run; simpl; rewrite ?Hv; simpl;
    eexists; (split; [reflexivity|]); done.
Qed.

(** A segment naming a padded attribute is applied whatever the array
    holds. *)
Lemma item_applies_padded h a v d m :
  urldecode v = Some d ->
  exists m1, pkcs11_parse_item h (padded_key a ++ v) m = Some (true, m1)
             /\ padded_field a (ctx m1) = pkcs11_pad d (padded_width a).
Proof.
  intros Hv. unfold pkcs11_parse_item. munfold.
  destruct a; simpl; rewrite ?drop_0; rewrite Hv; simpl;
    eexists; (split; [reflexivity|]); done.
Qed.

(** [slot-id=]: applied while the slot id is 0, whatever wrote the 0. *)
Lemma item_slot_id h v m :
  slotid (ctx m) = 0 ->
  pkcs11_parse_item h (cs "slot-id=" ++ v) m
  = Some (true, mkMachine (set_slotid (to_CK_ULONG (atoi v)) (ctx m)) (log m)).
Proof.
  intros Hs. unfold pkcs11_parse_item. munfold. simpl.
  rewrite ?drop_0. rewrite Hs. by simpl.
Qed.

End one_named_segment.

(** ** The scan and its segments *)

Lemma parse_items_found_segments h p m :
  parse_items_found h p m
  = parse_segments h (if bool_decide (p = []) then [] else [p]) m.
Proof.
  unfold parse_items_found. case_bool_decide; [done|].
  simpl. symmetry. apply bind_ret_bool.
Qed.

Lemma parse_segments_app h l1 l2 m :
  parse_segments h (l1 ++ l2) m
  = match parse_segments h l1 m with
    | Some (true, m1) => parse_segments h l2 m1
    | r => r
    end.
Proof.
  revert m. induction l1 as [|p l1 IH]; intros m; [done|].
  simpl. munfold.
  destruct (pkcs11_parse_item h p m) as [[[] m1]|]; simpl; [apply IH|done..].
Qed.

Lemma parse_items_loop_segments h q : forall p m,
  parse_items_loop h q p m = parse_segments h (segments_loop q p) m.
Proof.
  induction q as [|x q IH]; intros p m; simpl.
  - apply parse_items_found_segments.
  - case_bool_decide.
    + rewrite parse_segments_app, <- parse_items_found_segments.
      munfold. destruct (parse_items_found h p m) as [[[] m1]|]; simpl;
        [apply IH|done..].
    + apply IH.
Qed.

Lemma pkcs11_parse_items_segments h uri store m :
  pkcs11_parse_items h uri store m = parse_segments h (segments uri) m.
Proof. apply parse_items_loop_segments. Qed.

Lemma segments_loop_acc (q p : bytes) :
  p <> [] -> ";"%char ∉ q -> segments_loop q p = [p ++ q].
Proof.
  revert p. induction q as [|x q IH]; intros p Hp Hq; simpl.
  - rewrite app_nil_r. by case_bool_decide.
  - case_bool_decide as Hx.
    + subst x. exfalso. apply Hq. left.
    + rewrite IH.
      * by rewrite <- app_assoc.
      * by destruct p.
      * intros Hin. apply Hq. by right.
Qed.

Lemma segments_loop_sep (a q p : bytes) :
  ";"%char ∉ a -> p ++ a <> [] ->
  segments_loop (a ++ ";"%char :: q) p = (p ++ a) :: segments_loop q [].
Proof.
  revert p. induction a as [|x a IH]; intros p Ha Hp; simpl.
  - rewrite app_nil_r in *.
    by rewrite (bool_decide_eq_false_2 (p = [])).
  - case_bool_decide as Hx.
    + subst x. exfalso. apply Ha. left.
    + rewrite IH.
      * by rewrite <- app_assoc.
      * intros Hin. apply Ha. by right.
      * rewrite <- app_assoc. simpl. by destruct p.
Qed.

(** ** Lists of segments *)

Lemma segments_preserve_guarded h a segs : forall m b m' v,
  parse_segments h segs m = Some (b, m') ->
  guarded_field a (ctx m) = Some v ->
  guarded_field a (ctx m') = Some v.
Proof.
  induction segs as [|p segs IH]; intros m b m' v Hrun Hf; simpl in Hrun.
  - munfold. by simplify_eq.
  - munfold. destruct (pkcs11_parse_item h p m) as [[[] m1]|] eqn:E;
      simpl in Hrun; [|simplify_eq|done].
    + eapply IH; [done|]. by eapply item_preserves_guarded.
    + by eapply item_preserves_guarded.
Qed.

Lemma segments_preserve_slotid h segs : forall m b m',
  parse_segments h segs m = Some (b, m') ->
  slotid (ctx m) <> 0 ->
  slotid (ctx m') = slotid (ctx m).
Proof.
  induction segs as [|p segs IH]; intros m b m' Hrun Hs; simpl in Hrun.
  - munfold. by simplify_eq.
  - munfold. destruct (pkcs11_parse_item h p m) as [[[] m1]|] eqn:E;
      simpl in Hrun; [|simplify_eq|done].
    + pose proof (item_preserves_slotid _ _ _ _ _ E Hs) as E1.
      rewrite <- E1. eapply IH; [done|]. by rewrite E1.
    + by eapply item_preserves_slotid.
Qed.

Lemma segments_untouched_guarded h a segs : forall m b m',
  Forall (fun p => names_guarded a p = false) segs ->
  parse_segments h segs m = Some (b, m') ->
  guarded_field a (ctx m') = guarded_field a (ctx m).
Proof.
  induction segs as [|p segs IH]; intros m b m' Hn Hrun; simpl in Hrun.
  - munfold. by simplify_eq.
  - inversion Hn as [|? ? Hp Hrest]; subst.
    munfold. destruct (pkcs11_parse_item h p m) as [[[] m1]|] eqn:E;
      simpl in Hrun; [|simplify_eq|done].
    + rewrite <- (item_untouched_guarded _ _ _ _ _ _ Hp E). by eapply IH.
    + by eapply item_untouched_guarded.
Qed.

Lemma segments_untouched_padded h a segs : forall m b m',
  Forall (fun p => names_padded a p = false) segs ->
  parse_segments h segs m = Some (b, m') ->
  padded_field a (ctx m') = padded_field a (ctx m).
Proof.
  induction segs as [|p segs IH]; intros m b m' Hn Hrun; simpl in Hrun.
  - munfold. by simplify_eq.
  - inversion Hn as [|? ? Hp Hrest]; subst.
    munfold. destruct (pkcs11_parse_item h p m) as [[[] m1]|] eqn:E;
      simpl in Hrun; [|simplify_eq|done].
    + rewrite <- (item_untouched_padded _ _ _ _ _ _ Hp E). by eapply IH.
    + by eapply item_untouched_padded.
Qed.

Lemma segments_pin_set_log h segs : forall m b m' v,
  parse_segments h segs m = Some (b, m') ->
  pin (ctx m) = Some v ->
  log m' = log m.
Proof.
  induction segs as [|p segs IH]; intros m b m' v Hrun Hf; simpl in Hrun.
  - munfold. by simplify_eq.
  - munfold. destruct (pkcs11_parse_item h p m) as [[[] m1]|] eqn:E;
      simpl in Hrun; [|simplify_eq|done].
    + rewrite <- (item_pin_set_log _ _ _ _ _ _ E Hf).
      eapply IH; [done|].
      by apply (item_preserves_guarded h A_pin_value _ _ _ _ _ E).
    + by eapply item_pin_set_log.
Qed.

Lemma segments_pin_untouched_log h segs : forall m b m',
  Forall (fun p => names_guarded A_pin_value p = false) segs ->
  parse_segments h segs m = Some (b, m') ->
  log m' = log m.
Proof.
  induction segs as [|p segs IH]; intros m b m' Hn Hrun; simpl in Hrun.
  - munfold. by simplify_eq.
  - inversion Hn as [|? ? Hp Hrest]; subst.
    munfold. destruct (pkcs11_parse_item h p m) as [[[] m1]|] eqn:E;
      simpl in Hrun; [|simplify_eq|done].
    + rewrite <- (item_pin_untouched_log _ _ _ _ _ Hp E). by eapply IH.
    + by eapply item_pin_untouched_log.
Qed.

(** A successful parse of [l1 ++ l2] is a successful parse of [l1]
    followed by one of [l2]. *)
Lemma parse_segments_app_ok h l1 l2 m m' :
  parse_segments h (l1 ++ l2) m = Some (true, m') ->
  exists m1, parse_segments h l1 m = Some (true, m1)
             /\ parse_segments h l2 m1 = Some (true, m').
Proof.
  rewrite parse_segments_app.
  destruct (parse_segments h l1 m) as [[[] m1]|]; [eauto|done..].
Qed.

Lemma parse_segments_cons h p l m :
  parse_segments h (p :: l) m
  = match pkcs11_parse_item h p m with
    | Some (true, m1) => parse_segments h l m1
    | r => r
    end.
Proof.
  simpl. munfold. by destruct (pkcs11_parse_item h p m) as [[[] m1]|].
Qed.

Lemma parse_segments_cons_ok h p l m m' :
  parse_segments h (p :: l) m = Some (true, m') ->
  exists m1, pkcs11_parse_item h p m = Some (true, m1)
             /\ parse_segments h l m1 = Some (true, m').
Proof.
  simpl. munfold.
  destruct (pkcs11_parse_item h p m) as [[[] m1]|]; simpl; [eauto|done..].
Qed.

(** ** Repeated attributes *)

(** Segments that repeat what the context has are all skipped. *)
Lemma segments_repeats h dups : forall m,
  Forall (repeats (ctx m)) dups -> parse_segments h dups m = Some (true, m).
Proof.
  induction dups as [|p dups IH]; intros m Hall; [done|].
  inversion Hall as [|? ? Hp Hrest]; subst.
  rewrite parse_segments_cons, (item_repeats h p m Hp). by apply IH.
Qed.

(** C2, as the code has it.  A segment for [pin-value], [pin-source],
    [object], [id], [type] or [module-path] is applied only while its
    field is NULL, and a [slot-id] segment only while the slot id is 0.
    A segment that finds its field set (by an earlier segment, by a
    control command or by an earlier parse) is skipped: it is no error and
    changes nothing, and a URI that ends in such segments parses as the
    URI without them.  The first segment that names an unset field gives
    it its value, so the first occurrence wins.  [model], [serial],
    [token] and [manufacturer] have no guard: every segment naming one of
    them overwrites the array, and the last one wins. *)
Theorem parse_items_duplicates h :
  (forall p m, repeats (ctx m) p -> pkcs11_parse_item h p m = Some (true, m))
  /\ (forall uri store m segs dups m1,
        segments uri = segs ++ dups ->
        parse_segments h segs m = Some (true, m1) ->
        Forall (repeats (ctx m1)) dups ->
        pkcs11_parse_items h uri store m = Some (true, m1))
  /\ (forall a v d m,
        guarded_field a (ctx m) = None ->
        guarded_value h a v = Some d ->
        exists m1,
          pkcs11_parse_item h (guarded_key a ++ v) m = Some (true, m1)
          /\ guarded_field a (ctx m1) = Some d)
  /\ (forall a v d m,
        urldecode v = Some d ->
        exists m1,
          pkcs11_parse_item h (padded_key a ++ v) m = Some (true, m1)
          /\ padded_field a (ctx m1) = pkcs11_pad d (padded_width a))
  /\ (forall uri store m b m',
        pkcs11_parse_items h uri store m = Some (b, m') ->
        (forall a v, guarded_field a (ctx m) = Some v ->
                     guarded_field a (ctx m') = Some v)
        /\ (slotid (ctx m) <> 0 -> slotid (ctx m') = slotid (ctx m))
        /\ (b = true ->
            forall a pre v post d,
              segments uri = pre ++ (guarded_key a ++ v) :: post ->
              Forall (fun p => names_guarded a p = false) pre ->
              guarded_field a (ctx m) = None ->
              guarded_value h a v = Some d ->
              guarded_field a (ctx m') = Some d)
        /\ (b = true ->
            forall a pre v post,
              segments uri = pre ++ (padded_key a ++ v) :: post ->
              Forall (fun p => names_padded a p = false) post ->
              exists d, urldecode v = Some d
                        /\ padded_field a (ctx m')
                           = pkcs11_pad d (padded_width a))).
Proof.
  split; [|split; [|split; [|split]]].
  - intros p m. apply item_repeats.
  - intros uri store m segs dups m1 Hsegs Hrun Hdups.
    rewrite pkcs11_parse_items_segments, Hsegs, parse_segments_app, Hrun.
    by apply segments_repeats.
  - intros a v d m. apply item_applies_guarded.
  - intros a v d m. apply item_applies_padded.
  - intros uri store m b m'.
    rewrite pkcs11_parse_items_segments. intros Hrun.
    split; [|split; [|split]].
    + intros a v. by eapply segments_preserve_guarded.
    + by eapply segments_preserve_slotid.
    + intros -> a pre v post d Hsegs Hpre Hf Hv. rewrite Hsegs in Hrun.
      apply parse_segments_app_ok in Hrun as (m1 & Hpre_run & Hrun).
      apply parse_segments_cons_ok in Hrun as (m2 & Hitem & Hpost).
      eapply segments_preserve_guarded; [exact Hpost|].
      rewrite <- Hv. eapply item_sets_guarded; [|exact Hitem].
      rewrite <- Hf. by eapply segments_untouched_guarded.
    + intros -> a pre v post Hsegs Hpost. rewrite Hsegs in Hrun.
      apply parse_segments_app_ok in Hrun as (m1 & Hpre_run & Hrun).
      apply parse_segments_cons_ok in Hrun as (m2 & Hitem & Hpost_run).
      destruct (item_sets_padded _ _ _ _ _ _ Hitem) as (d & Hd & Hfield).
      exists d. split; [done|]. rewrite <- Hfield.
      by eapply segments_untouched_padded.
Qed.

(** A URI that gives every guarded attribute and the slot id twice parses
    successfully, with the values of the first occurrences; the file of
    the later [pin-source] is not opened. *)
Lemma parse_items_duplicates_witness :
  exists m',
    pkcs11_parse_items plain_host
      (cs "id=01;object=a;type=cert;module-path=/m;slot-id=3;pin-value=1;id=02;object=b;type=private;module-path=/n;slot-id=4;pin-value=2;pin-source=file:/p")
      false fresh
    = Some (true, m')
    /\ id (ctx m') = Some (cs "01") /\ label (ctx m') = Some (cs "a")
    /\ type (ctx m') = Some (cs "cert")
    /\ module_path (ctx m') = Some (cs "/m")
    /\ slotid (ctx m') = 3 /\ pin (ctx m') = Some (cs "1")
    /\ log m' = [].
Proof.
  pose (segs := [cs "id=01"; cs "object=a"; cs "type=cert";
                 cs "module-path=/m"; cs "slot-id=3"; cs "pin-value=1"]).
  pose (dups := [cs "id=" ++ cs "02"; cs "object=" ++ cs "b";
                 cs "type=" ++ cs "private"; cs "module-path=" ++ cs "/n";
                 cs "slot-id=" ++ cs "4"; cs "pin-value=" ++ cs "2";
                 cs "pin-source=" ++ cs "file:/p"]).
  let v := eval vm_compute in (parse_segments plain_host segs fresh) in
  match v with
  | Some (true, ?m1) =>
      exists m1; split;
      [ apply (proj1 (proj2 (parse_items_duplicates plain_host))
                 _ false fresh segs dups m1);
        [ vm_compute; reflexivity
        | vm_compute; reflexivity
        | subst dups;
          repeat first [ apply List.Forall_nil | apply List.Forall_cons ] ]
      | by repeat split ]
  end.
  - left. exists A_id, (cs "02"). split; [reflexivity | by eexists].
  - left. exists A_object, (cs "b"). split; [reflexivity | by eexists].
  - left. exists A_type, (cs "private"). split; [reflexivity | by eexists].
  - left. exists A_module_path, (cs "/n"). split; [reflexivity | by eexists].
  - right. right. exists (cs "4"). split; [reflexivity | done].
  - left. exists A_pin_value, (cs "2"). split; [reflexivity | by eexists].
  - right. left. exists (cs "file:/p"). split; [reflexivity | by eexists].
Defined.

(** C2 as stated fails for the padded attributes: after
    [token=A;token=B] the token criterion is [B], not [A]. *)
Lemma duplicate_token_last_wins :
  exists m', pkcs11_parse_items plain_host (cs "token=A;token=B") false fresh
             = Some (true, m')
             /\ token (ctx m') = pkcs11_pad (cs "B") 32
             /\ token (ctx m') <> pkcs11_pad (cs "A") 32.
Proof.
  eexists. split; [vm_compute; reflexivity|].
  split; [reflexivity | discriminate].
Qed.

(** ** Secret precedence inside the URI *)

(** C4, as the code has it.  The secret that is set first is kept: a PIN
    already in the context (preset by the [PIN] control command, say)
    outranks both URI attributes and no file is opened; otherwise the first
    of [pin-value=] and [pin-source=file:] in the URI decides: a literal
    that comes first wins without any file being opened, a file source
    that comes first is read and its line is the secret. *)
Theorem pin_first_set_wins h uri store m b m' :
  pkcs11_parse_items h uri store m = Some (b, m') ->
  (forall p, pin (ctx m) = Some p -> pin (ctx m') = Some p /\ log m' = log m)
  /\ (b = true -> pin (ctx m) = None ->
      forall pre v post,
        segments uri = pre ++ (cs "pin-value=" ++ v) :: post ->
        Forall (fun p => names_guarded A_pin_value p = false) pre ->
        pin (ctx m') = Some v /\ log m' = log m)
  /\ (b = true -> pin (ctx m) = None ->
      forall pre f post,
        segments uri = pre ++ (cs "pin-source=file:" ++ f) :: post ->
        Forall (fun p => names_guarded A_pin_value p = false) pre ->
        pin (ctx m') = pin_file_line h f
        /\ is_Some (pin_file_line h f)
        /\ log m' = log m ++ [EvFileOpen f]).
Proof.
  rewrite pkcs11_parse_items_segments. intros Hrun.
  split; [|split].
  - intros p Hp. split.
    + by apply (segments_preserve_guarded h A_pin_value _ _ _ _ _ Hrun).
    + by eapply segments_pin_set_log.
  - intros -> Hnone pre v post Hsegs Hpre. rewrite Hsegs in Hrun.
    apply parse_segments_app_ok in Hrun as (m1 & Hpre_run & Hrun).
    apply parse_segments_cons_ok in Hrun as (m2 & Hitem & Hpost).
    assert (Hp1 : pin (ctx m1) = None).
    { rewrite <- Hnone.
      by apply (segments_untouched_guarded h A_pin_value _ _ _ _ Hpre Hpre_run). }
    pose proof (item_sets_guarded h A_pin_value v _ _ _ Hp1 Hitem) as Hp2.
    simpl in Hp2.
    destruct (item_pin_value_log _ _ _ _ _ Hp1 Hitem) as [_ Hl2].
    split.
    + by apply (segments_preserve_guarded h A_pin_value _ _ _ _ _ Hpost).
    + rewrite (segments_pin_set_log _ _ _ _ _ _ Hpost Hp2), Hl2.
      by eapply segments_pin_untouched_log.
  - intros -> Hnone pre f post Hsegs Hpre. rewrite Hsegs in Hrun.
    apply parse_segments_app_ok in Hrun as (m1 & Hpre_run & Hrun).
    apply parse_segments_cons_ok in Hrun as (m2 & Hitem & Hpost).
    assert (Hp1 : pin (ctx m1) = None).
    { rewrite <- Hnone.
      by apply (segments_untouched_guarded h A_pin_value _ _ _ _ Hpre Hpre_run). }
    pose proof (item_sets_guarded h A_pin_source f _ _ _ Hp1 Hitem) as Hp2.
    simpl in Hp2.
    pose proof (item_pin_source_log _ _ _ _ _ Hp1 Hitem) as Hl2.
    assert (Hsome : is_Some (pin_file_line h f)).
    { clear -Hp1 Hitem. unfold pkcs11_parse_item in Hitem. munfold.
      simpl in Hitem. rewrite ?drop_0 in Hitem. rewrite Hp1 in Hitem.
      simpl in Hitem. rewrite pin_from_file_run in Hitem. simpl in Hitem.
      destruct (pin_file_line h f); [by eexists | by simplify_eq/=]. }
    destruct Hsome as [line Hline]. rewrite Hline in Hp2 |- *.
    split; [|split; [by eexists|]].
    + by apply (segments_preserve_guarded h A_pin_value _ _ _ _ _ Hpost).
    + rewrite (segments_pin_set_log _ _ _ _ _ _ Hpost Hp2), Hl2.
      by rewrite (segments_pin_untouched_log _ _ _ _ _ Hpre Hpre_run).
Qed.

(** With the PIN preset to [0000], [pin-value=1234;pin-source=file:/p]
    changes nothing and opens no file. *)
Lemma pin_first_set_wins_witness :
  exists m', pkcs11_parse_items plain_host
               (cs "pin-value=1234;pin-source=file:/p") false preset
             = Some (true, m')
             /\ pin (ctx m') = Some (cs "0000") /\ log m' = log preset.
Proof.
  eexists. split; [vm_compute; reflexivity|].
  destruct (pin_first_set_wins plain_host
              (cs "pin-value=1234;pin-source=file:/p") false preset
              true _ eq_refl) as (Hkept & _ & _).
  apply (Hkept (cs "0000")). reflexivity.
Defined.

(** C4 as stated fails when the file source comes first: the file is
    opened and its line, not the literal, is the secret. *)
Lemma pin_source_before_pin_value :
  exists m', pkcs11_parse_items plain_host
               (cs "pin-source=file:/p;pin-value=1234") false fresh
             = Some (true, m')
             /\ pin (ctx m') = Some (cs "9999")
             /\ pin (ctx m') <> Some (cs "1234")
             /\ log m' = [EvFileOpen (cs "/p")].
Proof.
  eexists. split; [vm_compute; reflexivity|].
  split; [reflexivity|]. split; [discriminate | reflexivity].
Qed.

(** The [PIN] control command presets the secret. *)
Lemma pkcs11_ctrl_pin h p m :
  exists m', pkcs11_ctrl h (mkENGINE true) (PKCS11_CMD_PIN p) m = Some (1, m')
             /\ pin (ctx m') = Some (c_str p) /\ log m' = log m.
Proof. eexists. by split. Qed.

(** ** The slot id *)

Lemma digits_value_no_digit (acc : Z) (r : bytes) :
  isdigit (char_at r 0) = false -> digits_value acc r = acc.
Proof.
  destruct r as [|c r]; [done|].
  unfold char_at. simpl. by intros ->.
Qed.


Lemma digits_value_app (d rest : bytes) : forall acc,
  Forall (fun c => isdigit c = true) d ->
  isdigit (char_at rest 0) = false ->
  digits_value acc (d ++ rest) = digits_value acc d.
Proof.
  induction d as [|c d IH]; intros acc Hd Hrest.
  - simpl. by rewrite digits_value_no_digit.
  - inversion Hd as [|? ? Hc Hd']; subst. simpl. rewrite Hc. by apply IH.
Qed.

Lemma digits_value_decimal (d : bytes) : forall acc,
  Forall (fun c => isdigit c = true) d ->
  digits_value acc d = fold_left (fun a c => a * 10 + (code c - 48)) d acc.
Proof.
  induction d as [|c d IH]; intros acc Hd; [done|].
  inversion Hd as [|? ? Hc Hd']; subst. simpl. rewrite Hc. by apply IH.
Qed.

Lemma decimal_nonneg (d : bytes) :
  Forall (fun c => isdigit c = true) d -> 0 <= decimal d.
Proof.
  assert (Hgen : forall acc, 0 <= acc ->
            Forall (fun c => isdigit c = true) d ->
            0 <= fold_left (fun a c => a * 10 + (code c - 48)) d acc).
  { induction d as [|c d IH]; intros acc Hacc Hd; [done|].
    inversion Hd as [|? ? Hc Hd']; subst. simpl. apply IH; [|done].
    unfold isdigit in Hc. lia. }
  intros Hd. by apply Hgen.
Qed.

(** [atoi] on digits followed by anything that is no digit. *)
Lemma atoi_digits (d rest : bytes) :
  d <> [] ->
  Forall (fun c => isdigit c = true) d ->
  isdigit (char_at rest 0) = false ->
  atoi (d ++ rest) = to_int (Z.min LONG_MAX (decimal d)).
Proof.
  intros Hne Hd Hrest. unfold atoi, strtol.
  pose proof (decimal_nonneg d Hd) as Hpos.
  destruct d as [|c d]; [done|].
  inversion Hd as [|? ? Hc Hd']; subst.
  assert (Hsp : isspace c = false).
  { clear -Hc. unfold isdigit, isspace in *. lia. }
  assert (Hm : c <> "-"%char).
  { intros ->. by vm_compute in Hc. }
  assert (Hp : c <> "+"%char).
  { intros ->. by vm_compute in Hc. }
  cbn [app skip_space]. rewrite Hsp.
  destruct (decide (c = "-"%char)); [done|].
  destruct (decide (c = "+"%char)); [done|].
  change (c :: d ++ rest) with ((c :: d) ++ rest).
  rewrite (digits_value_app (c :: d) rest 0 Hd Hrest).
  rewrite (digits_value_decimal (c :: d) 0 Hd). fold (decimal (c :: d)).
  f_equal. unfold LONG_MIN, LONG_MAX in *. lia.
Qed.

Lemma slot_value_small (z : Z) :
  0 <= z < 2 ^ 31 -> to_CK_ULONG (to_int (Z.min LONG_MAX z)) = z.
Proof.
  intros Hz. unfold to_CK_ULONG, to_int, LONG_MAX.
  rewrite Z.min_r by lia.
  rewrite (Z.mod_small (z + 2 ^ 31)) by lia.
  rewrite Z.mod_small by lia. lia.
Qed.




(** An explicit [slot-id=0] is overwritten by a later [slot-id=7]. *)
Lemma slot_id_explicit_zero_overwritten :
  exists m', pkcs11_parse_items plain_host (cs "slot-id=0;slot-id=7") false fresh
             = Some (true, m')
             /\ slotid (ctx m') = 7.
Proof. eexists. split; [vm_compute; reflexivity | reflexivity]. Qed.

(** ** Malformed escapes *)

(** [object=] with a value that does not decode: the NULL that [urldecode]
    returns is stored and the segment reports success. *)
Lemma item_object_bad_escape h v m :
  label (ctx m) = None -> urldecode v = None ->
  pkcs11_parse_item h (cs "object=" ++ v) m = Some (true, m).
Proof.
  intros Hl Hv. unfold pkcs11_parse_item. munfold. simpl.
  rewrite ?drop_0. rewrite Hl. simpl. rewrite Hv.
  destruct m as [[] l]. simpl in *. by subst.
Qed.

(** [id=] with a value that does not decode: the NULL goes to [strlen]. *)
Lemma item_id_bad_escape h v m :
  id (ctx m) = None -> urldecode v = None ->
  pkcs11_parse_item h (cs "id=" ++ v) m = None.
Proof.
  intros Hl Hv. unfold pkcs11_parse_item. munfold. simpl.
  rewrite ?drop_0. rewrite Hl. simpl. by rewrite Hv.
Qed.

(** C3, the code at [pkcs11:object=%G1;id=01] and at [pkcs11:id=%G1].
    [urldecode] rejects [%G1], yet the first parse succeeds with the label
    left NULL, and the second does not return at all. *)
Theorem bad_escape_not_rejected :
  urldecode (cs "%G1") = None
  /\ (exists m',
        pkcs11_parse plain_host (Some (cs "pkcs11:object=%G1;id=01")) false preset
        = Some (true, m')
        /\ label (ctx m') = None /\ id (ctx m') = Some (cs "01"))
  /\ pkcs11_parse plain_host (Some (cs "pkcs11:id=%G1")) false preset = None.
Proof.
  split; [reflexivity|]. split; [|reflexivity].
  eexists. split; [vm_compute; reflexivity|]. by split.
Qed.

(** ** The stages of [pkcs11_parse] *)

Lemma pkcs11_parse_stages h path store m :
  pkcs11_parse h (Some path) store m
  = match pkcs11_parse_uri h path store m with
    | Some (true, m1) =>
        match pkcs11_parse_module_path h m1 with
        | Some (true, m2) => pkcs11_parse_pin h store m2
        | r => r
        end
    | r => r
    end.
Proof.
  unfold pkcs11_parse. munfold.
  destruct (pkcs11_parse_uri h path store m) as [[[] m1]|]; [|done..].
  cbn [negb]. by destruct (pkcs11_parse_module_path h m1) as [[[] m2]|].
Qed.

Lemma console_pin_fails h m :
  prompt_fails (ui h) ->
  pkcs11_get_console_pin h m
  = Some (None, mkMachine (ctx m) (log m ++ [EvPrompt])).
Proof.
  unfold prompt_fails, pkcs11_get_console_pin. munfold. simpl.
  intros [-> | [-> | [-> | [-> | ->]]]]; simpl; [done| | | |];
    repeat case_match; done.
Qed.

Lemma console_pin_answers h m :
  ~ prompt_fails (ui h) ->
  pkcs11_get_console_pin h m
  = Some (Some (UI_input (ui h)), mkMachine (ctx m) (log m ++ [EvPrompt])).
Proof.
  unfold prompt_fails, pkcs11_get_console_pin. munfold. simpl. intros Hok.
  destruct (UI_new (ui h)); [|tauto].
  destruct (UI_construct_prompt (ui h)); [|tauto].
  destruct (UI_add_input_string (ui h)); [|tauto]. simpl.
  destruct (UI_process (ui h) =? -2) eqn:E1; [lia|].
  destruct (UI_process (ui h) =? -1) eqn:E2; [lia|]. done.
Qed.

Lemma prompt_fails_or_not h : prompt_fails (ui h) \/ ~ prompt_fails (ui h).
Proof.
  unfold prompt_fails.
  destruct (UI_new (ui h)); [|by left; left].
  destruct (UI_construct_prompt (ui h)); [|by left; right; left].
  destruct (UI_add_input_string (ui h)); [|by left; right; right; left].
  destruct (decide (UI_process (ui h) = -2)); [by left; do 3 right; left|].
  destruct (decide (UI_process (ui h) = -1)); [by left; do 4 right|].
  right. intros [? | [? | [? | [? | ?]]]]; congruence.
Qed.

Lemma NUL_not_in_private : NUL ∉ cs "private".
Proof.
  intros Hin.
  repeat (apply elem_of_cons in Hin as [Hin|Hin]; [discriminate|]).
  by apply elem_of_nil in Hin.
Qed.

(** The test of line 408 holds exactly for a type that begins with
    [private]. *)
Lemma type_is_private_prefix (c : PKCS11_CTX) :
  type_is_private c = true <-> exists r, type c = Some (cs "private" ++ r).
Proof.
  unfold type_is_private. destruct (type c) as [t|]; split.
  - intros Ht. apply Z.eqb_eq in Ht.
    destruct (strncmp_key_prefix t (cs "private") NUL_not_in_private Ht)
      as [r ->].
    by exists r.
  - intros [r [= ->]]. apply Z.eqb_eq.
    apply (strncmp_app_key (cs "private") r NUL_not_in_private).
  - done.
  - by intros [r ?].
Qed.

(** ** The prompt *)

(** C5, as the code has it.  When the parse reaches the PIN stage with no
    PIN in the context, the prompt is issued exactly when the context is
    direct-key, or the context is listing and the type begins with
    [private] (the test is a [strncmp] over seven characters).  A prompt
    that fails or is cancelled makes the parse fail; an answered prompt
    sets the PIN.  Without a prompt the parse succeeds with no PIN. *)
Theorem prompt_exactly_when h path store m m1 m2 :
  pkcs11_parse_uri h path store m = Some (true, m1) ->
  pkcs11_parse_module_path h m1 = Some (true, m2) ->
  pin (ctx m2) = None ->
  exists b m',
    pkcs11_parse h (Some path) store m = Some (b, m')
    /\ (store = false \/ (exists r, type (ctx m2) = Some (cs "private" ++ r)) ->
        log m' = log m2 ++ [EvPrompt]
        /\ (prompt_fails (ui h) -> b = false)
        /\ (~ prompt_fails (ui h) ->
            b = true /\ pin (ctx m') = Some (UI_input (ui h))))
    /\ (~ (store = false
           \/ (exists r, type (ctx m2) = Some (cs "private" ++ r))) ->
        log m' = log m2 /\ b = true /\ pin (ctx m') = None).
Proof.
  intros Huri Hmod Hpin. rewrite pkcs11_parse_stages, Huri, Hmod.
  unfold pkcs11_parse_pin. unfold mbind at 1, M_bind at 1, get_ctx at 1.
  rewrite Hpin. rewrite bool_decide_eq_true_2 by done. cbn [andb].
  destruct (negb store || store && type_is_private (ctx m2)) eqn:Hwant.
  - assert (Hcond : store = false
                    \/ exists r, type (ctx m2) = Some (cs "private" ++ r)).
    { destruct store; [right|by left]. simpl in Hwant.
      by apply type_is_private_prefix. }
    destruct (prompt_fails_or_not h) as [Hfail|Hok].
    + unfold mbind, M_bind. rewrite (console_pin_fails h m2 Hfail).
      eexists _, _. split; [reflexivity|]. split; [|tauto].
      intros _. split; [done|]. split; [done|]. tauto.
    + unfold mbind, M_bind. rewrite (console_pin_answers h m2 Hok).
      eexists _, _. split; [reflexivity|]. split; [|tauto].
      intros _. split; [done|]. split; [tauto|]. done.
  - assert (Hcond : ~ (store = false
                       \/ exists r, type (ctx m2) = Some (cs "private" ++ r))).
    { intros [-> | Hr]; [done|].
      apply type_is_private_prefix in Hr. rewrite Hr in Hwant.
      by destruct store. }
    eexists _, _. split; [reflexivity|]. split; [tauto|].
    intros _. by split.
Qed.

(** A direct-key parse of [pkcs11:id=01] with the module path preset and
    no PIN prompts once and takes the answer. *)
Lemma prompt_exactly_when_witness :
  exists b m',
    pkcs11_parse plain_host (Some (cs "pkcs11:id=01")) false with_module_path
    = Some (b, m')
    /\ log m' = [EvPrompt] /\ b = true.
Proof.
  pose (m1 := mkMachine (set_idlen 2 (set_id (Some (cs "01"))
                                        (ctx with_module_path))) []).
  destruct (prompt_exactly_when plain_host (cs "pkcs11:id=01") false
              with_module_path m1 m1) as (b & m' & Hrun & Hyes & _);
    [vm_compute; reflexivity.. |].
  exists b, m'. split; [exact Hrun|].
  destruct (Hyes (or_introl eq_refl)) as (Hlog & _ & Hok).
  split; [exact Hlog|]. apply Hok.
  unfold prompt_fails. simpl. intros [? | [? | [? | [? | ?]]]]; discriminate.
Defined.

(** C5 as stated fails for a type that only begins with [private]: a
    listing parse of [pkcs11:type=privatekey] prompts. *)
Lemma prompt_on_private_prefix :
  exists m',
    pkcs11_parse plain_host (Some (cs "pkcs11:type=privatekey")) true
      with_module_path
    = Some (true, m')
    /\ log m' = [EvPrompt]
    /\ type (ctx m') = Some (cs "privatekey")
    /\ type (ctx m') <> Some (cs "private").
Proof.
  eexists. split; [vm_compute; reflexivity|].
  split; [reflexivity|]. split; [reflexivity | discriminate].
Qed.

(** A cancelled prompt fails the parse. *)
Lemma prompt_cancelled_fails :
  exists m',
    pkcs11_parse (example_host ui_cancelled true [])
      (Some (cs "pkcs11:id=01")) false with_module_path
    = Some (false, m')
    /\ log m' = [EvPrompt].
Proof. eexists. split; [vm_compute; reflexivity | reflexivity]. Qed.

(** ** The selector check *)




(** ** The module path *)

Lemma pkcs11_parse_pin_returns h store m :
  exists b m', pkcs11_parse_pin h store m = Some (b, m')
               /\ module_path (ctx m') = module_path (ctx m).
Proof.
  unfold pkcs11_parse_pin, pkcs11_get_console_pin. munfold. simpl.
  repeat case_match; simplify_eq/=; by eexists _, _.
Qed.

(** C7.  When the criteria stage ends with the module path still NULL,
    the parser asks the environment: without [PKCS11_MODULE_PATH] the
    parse returns failure (it does not crash and takes no default), with
    it the parse goes on with that path. *)
Theorem module_path_fallback h path store m m1 :
  pkcs11_parse_uri h path store m = Some (true, m1) ->
  module_path (ctx m1) = None ->
  match getenv_PKCS11_MODULE_PATH h with
  | None =>
      exists m', pkcs11_parse h (Some path) store m = Some (false, m')
                 /\ module_path (ctx m') = None
                 /\ log m' = log m1 ++ [EvGetenv]
  | Some env =>
      let m2 := mkMachine (set_module_path (Some env) (ctx m1))
                          (log m1 ++ [EvGetenv]) in
      pkcs11_parse h (Some path) store m = pkcs11_parse_pin h store m2
      /\ exists b m', pkcs11_parse h (Some path) store m = Some (b, m')
                      /\ module_path (ctx m') = Some env
  end.
Proof.
  intros Huri Hnone. rewrite pkcs11_parse_stages, Huri.
  unfold pkcs11_parse_module_path. munfold. rewrite Hnone.
  rewrite bool_decide_eq_true_2 by done. simpl.
  destruct (getenv_PKCS11_MODULE_PATH h) as [env|] eqn:Henv.
  - rewrite bool_decide_eq_false_2 by done. split; [done|].
    destruct (pkcs11_parse_pin_returns h store
                (mkMachine (set_module_path (Some env) (ctx m1))
                           (log m1 ++ [EvGetenv]))) as (b & m' & Hrun & Hmp).
    exists b, m'. by split.
  - rewrite bool_decide_eq_true_2 by done.
    eexists. split; [reflexivity|]. by split.
Qed.

(** A fresh context, no [module-path=] in the URI, nothing in the
    environment: the parse fails. *)
Lemma module_path_fallback_witness :
  exists m',
    pkcs11_parse plain_host (Some (cs "pkcs11:id=01")) false fresh
    = Some (false, m')
    /\ module_path (ctx m') = None
    /\ log m' = [EvGetenv].
Proof.
  pose (m1 := mkMachine (set_idlen 2 (set_id (Some (cs "01")) (ctx fresh))) []).
  apply (module_path_fallback plain_host (cs "pkcs11:id=01") false fresh m1);
    reflexivity.
Defined.

(** ** Client-certificate selection *)

Lemma issuer_match_loop_spec h names x :
  issuer_match_loop h names x = true
  <-> exists nm, nm ∈ names /\ X509_NAME_cmp h nm (X509_get_issuer_name x) = 0.
Proof.
  induction names as [|nm names IH]; simpl.
  - split; [done|]. intros (nm & Hin & _). by apply elem_of_nil in Hin.
  - destruct (X509_NAME_cmp h nm (X509_get_issuer_name x) =? 0) eqn:E.
    + split; [|done]. intros _. exists nm. split; [left | lia].
    + rewrite IH. split.
      * intros (nm' & Hin & Hc). exists nm'. split; [by right | done].
      * intros (nm' & Hin & Hc). apply elem_of_cons in Hin as [-> | Hin];
          [lia|]. by exists nm'.
Qed.

(** [cert_issuer_match] is the issuer condition of the specification. *)
Lemma cert_issuer_match_spec h ca_dn x :
  cert_issuer_match h ca_dn x = true
  <-> issuer_entries ca_dn = []
      \/ exists nm, nm ∈ issuer_entries ca_dn
                    /\ X509_NAME_cmp h nm (X509_get_issuer_name x) = 0.
Proof.
  unfold cert_issuer_match, issuer_entries, sk_X509_NAME_num.
  destruct ca_dn as [[|nm l]|]; cbn [default].
  - split; [by left | done].
  - destruct (Z.leb_spec (Z.of_nat (length (nm :: l))) 0) as [Hle|_].
    { simpl in Hle. lia. }
    rewrite (issuer_match_loop_spec h (nm :: l) x). split; [by right|].
    by intros [? | ?].
  - split; [by left | done].
Qed.





(** [pkcs11_load_ssl_client_cert] is its search followed by the release
    of the store context. *)
Lemma pkcs11_load_ssl_client_cert_run h e ca_dn m :
  pkcs11_load_ssl_client_cert h e ca_dn m
  = match load_ssl_client_cert_search h e ca_dn m with
    | Some (r, m') =>
        Some (r, mkMachine (ctx m')
                   (log m' ++ [EvPKeyFree; EvUnregisterLoader]))
    | None => None
    end.
Proof.
  unfold pkcs11_load_ssl_client_cert, free_store_ctx. munfold.
  destruct (load_ssl_client_cert_search h e ca_dn m) as [[r m']|]; [|done].
  cbn [ctx log]. by rewrite <- app_assoc.
Qed.








(** ** Sessions *)

Lemma emits_ret {A} (P : event -> Prop) (a : A) : emits P (mret a).
Proof.
  intros m a' m' [= <- <-]. exists []. by rewrite app_nil_r.
Qed.

Lemma emits_crash {A} (P : event -> Prop) : emits P (@crash A).
Proof. by intros m a m' ?. Qed.

Lemma emits_get_ctx (P : event -> Prop) : emits P get_ctx.
Proof.
  intros m a' m' [= <- <-]. exists []. by rewrite app_nil_r.
Qed.

Lemma emits_modify (P : event -> Prop) f : emits P (modify f).
Proof.
  intros m a' m' [= <- <-]. exists []. by rewrite app_nil_r.
Qed.

Lemma emits_emit (P : event -> Prop) e : P e -> emits P (emit e).
Proof.
  intros He m a' m' [= <- <-]. exists [e]. split; [done|]. by constructor.
Qed.

Lemma emits_bind {A B} (P : event -> Prop) (c : M A) (f : A -> M B) :
  emits P c -> (forall a, emits P (f a)) -> emits P (c ≫= f).
Proof.
  intros Hc Hf m b m' Hrun. unfold mbind, M_bind in Hrun.
  destruct (c m) as [[a m1]|] eqn:E; [|done].
  destruct (Hc _ _ _ E) as (evs1 & Hl1 & HP1).
  destruct (Hf a _ _ _ Hrun) as (evs2 & Hl2 & HP2).
  exists (evs1 ++ evs2). split.
  - by rewrite Hl2, Hl1, app_assoc.
  - by apply Forall_app.
Qed.

Lemma emits_calls {A} (P : event -> Prop) (c : M A) (m : machine) :
  emits P c -> Forall P (calls c m).
Proof.
  intros Hc. unfold calls. destruct (c m) as [[a m']|] eqn:E; [|done].
  destruct (Hc _ _ _ E) as (evs & -> & HP).
  by rewrite drop_app_length.
Qed.

(** One step through a computation: a bind, a branch, or a primitive. *)
Ltac emits_step :=
  match goal with
  | |- emits _ (mret _) => apply emits_ret
  | |- emits _ crash => apply emits_crash
  | |- emits _ get_ctx => apply emits_get_ctx
  | |- emits _ (modify _) => apply emits_modify
  | |- emits _ (emit _) => apply emits_emit; reflexivity
  | |- emits _ (_ ≫= _) => apply emits_bind; [|intros ?]
  | |- emits _ (if ?b then _ else _) => destruct b
  | |- emits _ (match ?x with _ => _ end) => destruct x
  | |- emits _ (let _ := _ in _) => cbv zeta
  end.

Section no_end_session.

Variable h : host.

Local Opaque strncmp urldecode pkcs11_pad atoi.

Lemma pin_from_file_emits f : emits not_end_session (pin_from_file h f).
Proof. unfold pin_from_file. repeat emits_step. Qed.

Lemma pkcs11_get_console_pin_emits :
  emits not_end_session (pkcs11_get_console_pin h).
Proof. unfold pkcs11_get_console_pin. repeat emits_step. Qed.

Lemma pkcs11_parse_item_emits p : emits not_end_session (pkcs11_parse_item h p).
Proof.
  unfold pkcs11_parse_item.
  repeat first [ apply pin_from_file_emits | emits_step ].
Qed.

Lemma parse_items_loop_emits q :
  forall p, emits not_end_session (parse_items_loop h q p).
Proof.
  assert (Hfound : forall p, emits not_end_session (parse_items_found h p)).
  { intros p. unfold parse_items_found.
    repeat first [ apply pkcs11_parse_item_emits | emits_step ]. }
  induction q as [|x q IH]; intros p; cbn [parse_items_loop]; [apply Hfound|].
  repeat first [ apply Hfound | apply IH | emits_step ].
Qed.

Lemma pkcs11_parse_emits path store :
  emits not_end_session (pkcs11_parse h path store).
Proof.
  unfold pkcs11_parse, pkcs11_parse_uri, pkcs11_parse_module_path,
    pkcs11_parse_pin, pkcs11_parse_items.
  repeat first [ apply parse_items_loop_emits
               | apply pkcs11_get_console_pin_emits | emits_step ].
Qed.

Lemma pkcs11_engine_load_private_key_emits e path :
  emits not_end_session (pkcs11_engine_load_private_key h e path).
Proof.
  unfold pkcs11_engine_load_private_key.
  repeat first [ apply pkcs11_parse_emits | emits_step ].
Qed.

Lemma pkcs11_engine_load_public_key_emits e path :
  emits not_end_session (pkcs11_engine_load_public_key h e path).
Proof.
  unfold pkcs11_engine_load_public_key.
  repeat first [ apply pkcs11_parse_emits | emits_step ].
Qed.

Lemma client_cert_loop_emits session ca_dn certs :
  emits not_end_session (client_cert_loop h session ca_dn certs).
Proof.
  induction certs as [|[[x cid] cidlen] certs IH]; cbn [client_cert_loop].
  - repeat emits_step.
  - repeat first [ apply IH | emits_step ].
Qed.

Lemma pkcs11_load_ssl_client_cert_emits e ca_dn :
  emits not_end_session (pkcs11_load_ssl_client_cert h e ca_dn).
Proof.
  unfold pkcs11_load_ssl_client_cert, load_ssl_client_cert_search,
    free_store_ctx.
  repeat first [ apply client_cert_loop_emits
               | apply pkcs11_get_console_pin_emits | emits_step ].
Qed.

(** None of the three operations ever calls [pkcs11_end_session]. *)
Lemma operations_never_end_session e path ca_dn m :
  Forall not_end_session (calls (pkcs11_engine_load_private_key h e path) m)
  /\ Forall not_end_session (calls (pkcs11_engine_load_public_key h e path) m)
  /\ Forall not_end_session (calls (pkcs11_load_ssl_client_cert h e ca_dn) m).
Proof.
  split; [|split]; apply emits_calls.
  - apply pkcs11_engine_load_private_key_emits.
  - apply pkcs11_engine_load_public_key_emits.
  - apply pkcs11_load_ssl_client_cert_emits.
Qed.

End no_end_session.

(** C1, the code at a login failure.  Loading the private key
    [pkcs11:id=01] from a token that opens session 7 and then refuses the
    login returns no key; the calls made are the start of the session and
    the login, and no call ends the session.  Loading the public key does
    the same. *)
Theorem login_failure_leaves_session_open :
  let e := mkENGINE true in
  let uri := Some (cs "pkcs11:id=01") in
  let private := pkcs11_engine_load_private_key login_fails_host e uri in
  let public := pkcs11_engine_load_public_key login_fails_host e uri in
  fst <$> private preset = Some None
  /\ calls private preset
     = [EvInitialize (Some (cs "/lib/p11.so")); EvGetSlot; EvStartSession;
        EvLogin 7]
  /\ length (filter (fun ev => is_end_session ev = true) (calls private preset))
     = 0%nat
  /\ fst <$> public preset = Some None
  /\ length (filter (fun ev => is_end_session ev = true) (calls public preset))
     = 0%nat.
Proof. vm_compute. by repeat split. Qed.

(** The control command that loads a certificate ends its session. *)
Lemma load_cert_ends_session :
  calls (pkcs11_engine_load_cert plain_host (mkENGINE true)
           (Some (cs "pkcs11:id=01")) (CKO_CERTIFICATE, None)) preset
  = [EvInitialize (Some (cs "/lib/p11.so")); EvGetSlot; EvStartSession;
     EvSearchStart 7; EvNextObject 7; EvEndSession 7; EvFinalize;
     EvPKeyFree; EvUnregisterLoader].
Proof. reflexivity. Qed.

(** Client-certificate selection that finds no private key for the
    selected certificate returns with its session open. *)
Lemma client_cert_key_not_found_leaves_session_open :
  let h := mkHost (fun _ => None) None (ui_answers "4321")
             (fun a b => if decide (a = b) then 0 else 1)
             (fun _ => CKR_OK) (fun _ => true) (fun _ => Some 7)
             (fun _ _ => true) (fun _ _ => 0) (fun _ _ => 0)
             (fun _ _ k => Some k) (fun _ _ => true)
             [(mkX509 (cs "CN=CA") 1, cs "02", 2)] in
  let run := pkcs11_load_ssl_client_cert h (mkENGINE true) None in
  (ret ∘ fst) <$> run preset = Some 0
  /\ calls run preset
     = [EvInitialize (Some (cs "/lib/p11.so")); EvGetSlot; EvStartSession;
        EvSearchStart 7; EvNextCert 7; EvCloseOperation 7;
        EvFindPrivateKey 7 (Some (cs "02")) 2;
        EvPKeyFree; EvUnregisterLoader].
Proof. vm_compute. by split. Qed.

(** * Further properties of the code *)

(** ** [urldecode] *)

Lemma urldecode_length_aux (n : nat) : forall p d,
  (length p <= n)%nat -> urldecode p = Some d ->
  length p = (length d + 2 * escapes p)%nat.
Proof.
  induction n as [|n IH]; intros p d Hn Hd.
  - destruct p; [|simpl in Hn; lia]. by injection Hd as <-.
  - destruct p as [|c rest]; [by injection Hd as <-|].
    simpl in Hd, Hn. unfold escapes. rewrite filter_cons.
    destruct (decide (c = "%"%char)) as [->|Hc].
    + destruct rest as [|h1 [|h2 rest']]; [done..|].
      destruct (isxdigit h1 && isxdigit h2) eqn:Hx; [|done].
      destruct (urldecode rest') as [d'|] eqn:Hd'; [|done].
      injection Hd as <-. simpl in Hn.
      pose proof (IH rest' d' ltac:(lia) Hd') as Hlen.
      assert (Hh1 : h1 <> "%"%char).
      { intros ->. by vm_compute in Hx. }
      assert (Hh2 : h2 <> "%"%char).
      { intros ->. rewrite andb_comm in Hx. by vm_compute in Hx. }
      rewrite !filter_cons.
      destruct (decide (h1 = "%"%char)); [done|].
      destruct (decide (h2 = "%"%char)); [done|].
      unfold escapes in Hlen. simpl. lia.
    + destruct (urldecode rest) as [d'|] eqn:Hd'; [|done].
      injection Hd as <-.
      pose proof (IH rest d' ltac:(lia) Hd') as Hlen.
      unfold escapes in Hlen. simpl. lia.
Qed.

(** X1.  A decoded string is shorter than its source by two bytes for
    every [%] of the source, so decoding never writes more bytes than the
    copy of the source it writes into can hold. *)
Theorem urldecode_length (p d : bytes) :
  urldecode p = Some d ->
  length p = (length d + 2 * escapes p)%nat /\ (length d <= length p)%nat.
Proof.
  intros Hd. pose proof (urldecode_length_aux (length p) p d (le_n _) Hd). lia.
Qed.

Lemma urldecode_length_witness :
  urldecode (cs "My%20Key") = Some (cs "My Key")
  /\ length (cs "My%20Key") = (length (cs "My Key") + 2 * escapes (cs "My%20Key"))%nat.
Proof.
  split; [reflexivity|].
  apply (urldecode_length (cs "My%20Key") (cs "My Key")). reflexivity.
Defined.

(** X2.  A string without [%] decodes to itself. *)
Theorem urldecode_plain (p : bytes) :
  "%"%char ∉ p -> urldecode p = Some p.
Proof.
  induction p as [|c p IH]; intros Hp; [done|].
  simpl. destruct (decide (c = "%"%char)) as [->|_].
  - exfalso. apply Hp. left.
  - rewrite IH; [done|]. intros Hin. apply Hp. by right.
Qed.

Lemma urldecode_plain_witness : urldecode (cs "deadbeef") = Some (cs "deadbeef").
Proof.
  apply (urldecode_plain (cs "deadbeef")). intros Hin.
  repeat (apply elem_of_cons in Hin as [Hin|Hin]; [discriminate|]).
  by apply elem_of_nil in Hin.
Defined.

Lemma hex_pair_decodes (c : ascii) :
  isxdigit (hex_digit (code c / 16)) && isxdigit (hex_digit (code c mod 16))
  = true
  /\ ascii_of_Z
       (Z.lor (Z.shiftl (OPENSSL_hexchar2int (hex_digit (code c / 16))) 4)
              (OPENSSL_hexchar2int (hex_digit (code c mod 16))))
     = c.
Proof.
  destruct c as [[] [] [] [] [] [] [] []]; vm_compute; by split.
Qed.

(** X3.  Every byte string has an escaped form that [urldecode]
    maps back to it: writing each byte as [%HH] and decoding is the
    identity, for NUL, [;] and [%] as for any other byte. *)
Theorem urldecode_urlencode (b : bytes) : urldecode (urlencode b) = Some b.
Proof.
  induction b as [|c b IH]; [done|].
  unfold urlencode. rewrite fmap_cons. cbn [concat app].
  change (concat _) with (urlencode b).
  cbn [urldecode].
  destruct (decide ("%"%char = "%"%char)); [|done].
  destruct (hex_pair_decodes c) as [-> ->].
  by rewrite IH.
Qed.

(** ** Ids with a zero byte *)

Lemma c_str_shorter (d : bytes) :
  NUL ∈ d -> (length (c_str d) < length d)%nat.
Proof.
  induction d as [|c d IH]; intros Hin.
  - by apply elem_of_nil in Hin.
  - simpl. destruct (decide (c = NUL)) as [->|Hc]; [simpl; lia|].
    apply elem_of_cons in Hin as [Heq|Hin]; [congruence|].
    simpl. specialize (IH Hin). lia.
Qed.

(** X4.  An [id=] value that decodes is stored whole, but the
    length recorded beside it is its [strlen]: it stops at the first zero
    byte, so an id holding a zero byte is recorded shorter than it is, and
    an id without one at its full length. *)
Theorem id_length_stops_at_NUL h v d m :
  id (ctx m) = None ->
  urldecode v = Some d ->
  exists m',
    pkcs11_parse_item h (cs "id=" ++ v) m = Some (true, m')
    /\ id (ctx m') = Some d
    /\ idlen (ctx m') = Z.of_nat (length (c_str d))
    /\ (NUL ∈ d -> idlen (ctx m') < Z.of_nat (length d))
    /\ (NUL ∉ d -> idlen (ctx m') = Z.of_nat (length d)).
Proof.
  intros Hid Hd. unfold pkcs11_parse_item. munfold. simpl.
  rewrite ?drop_0. rewrite Hid. simpl. rewrite Hd.
  eexists. split; [reflexivity|]. simpl. split; [done|]. split; [done|].
  unfold strlen. split.
  - intros Hin. pose proof (c_str_shorter d Hin). lia.
  - intros Hno. by rewrite c_str_no_NUL.
Qed.

Lemma id_length_stops_at_NUL_witness :
  exists m',
    pkcs11_parse_item plain_host (cs "id=%41%00%42") fresh = Some (true, m')
    /\ id (ctx m') = Some ["A"%char; NUL; "B"%char]
    /\ idlen (ctx m') = 1.
Proof.
  destruct (id_length_stops_at_NUL plain_host (cs "%41%00%42")
              ["A"%char; NUL; "B"%char] fresh eq_refl eq_refl)
    as (m' & Hrun & Hid & Hlen & _).
  exists m'. split; [exact Hrun|]. split; [exact Hid | exact Hlen].
Defined.

(** ** Padding and trailing spaces *)

Lemma c_str_spaces (k : nat) : c_str (replicate k space) = replicate k space.
Proof. induction k as [|k IH]; [done|]. simpl. by rewrite IH. Qed.

Lemma pad_spaces_aux (s : bytes) : forall (k w : nat),
  take w (c_str (s ++ replicate k space))
    ++ replicate (w - length (c_str (s ++ replicate k space))) space
  = take w (c_str s) ++ replicate (w - length (c_str s)) space.
Proof.
  induction s as [|c s IH]; intros k w.
  - cbn [app c_str length]. rewrite c_str_spaces, take_replicate, length_replicate.
    rewrite take_nil, Nat.sub_0_r. cbn [app].
    rewrite <- replicate_add. f_equal. lia.
  - simpl. destruct (decide (c = NUL)); [done|].
    destruct w as [|w]; [done|]. simpl. f_equal. apply IH.
Qed.

(** X5.  Spaces at the end of a criterion are not told apart
    from padding: a string and the same string followed by any number of
    spaces pad to the same field. *)
Theorem pkcs11_pad_trailing_spaces (s : bytes) (k w : nat) :
  pkcs11_pad (s ++ replicate k space) w = pkcs11_pad s w.
Proof.
  rewrite !pkcs11_pad_eq. unfold strlen. apply pad_spaces_aux.
Qed.

(** ** [pin_from_file] *)

Lemma fgets_spec (n : nat) : forall content,
  (fgets n content `prefix_of` content)
  /\ (length (fgets n content) <= n)%nat.
Proof.
  induction n as [|n IH]; intros content.
  - simpl. destruct content; split; try apply prefix_nil; simpl; lia.
  - destruct content as [|x r]; simpl.
    + split; [done | lia].
    + destruct (decide (x = newline)) as [->|Hx].
      * split; [by apply prefix_cons, prefix_nil | simpl; lia].
      * destruct (IH r) as (Hp & Hl).
        split; [by apply prefix_cons | simpl; lia].
Qed.

Lemma truncate_at_spec (c : ascii) (s : bytes) :
  (truncate_at c s `prefix_of` s) /\ c ∉ truncate_at c s.
Proof.
  induction s as [|x s [IHp IHn]]; simpl.
  - split; [done|]. intros Hin. by apply elem_of_nil in Hin.
  - destruct (decide (x = c)) as [->|Hx].
    + split; [apply prefix_nil|]. intros Hin. by apply elem_of_nil in Hin.
    + split; [by apply prefix_cons|].
      intros Hin. apply elem_of_cons in Hin as [Heq|Hin]; [congruence|done].
Qed.

Lemma c_str_spec (s : bytes) : (c_str s `prefix_of` s) /\ NUL ∉ c_str s.
Proof.
  induction s as [|x s [IHp IHn]]; simpl.
  - split; [done|]. intros Hin. by apply elem_of_nil in Hin.
  - destruct (decide (x = NUL)) as [->|Hx].
    + split; [apply prefix_nil|]. intros Hin. by apply elem_of_nil in Hin.
    + split; [by apply prefix_cons|].
      intros Hin. apply elem_of_cons in Hin as [Heq|Hin]; [congruence|done].
Qed.

Lemma prefix_not_elem {A} (l1 l2 : list A) (x : A) :
  l1 `prefix_of` l2 -> x ∉ l2 -> x ∉ l1.
Proof.
  intros [k ->] Hno Hin. apply Hno. apply elem_of_app. by left.
Qed.

(** X6.  [pin_from_file] opens the file once.  A PIN it returns is the
    start of the file, holds neither a newline nor a NUL and has at most
    254 bytes; it returns NULL exactly when the file cannot be opened, is
    empty or starts with a NUL.  (The buffer it returns is static: this is
    the value at the return, which a later call replaces.) *)
Theorem pin_from_file_line h f m r m' :
  pin_from_file h f m = Some (r, m') ->
  log m' = log m ++ [EvFileOpen f]
  /\ match r with
     | Some p =>
         exists content,
           BIO_file h f = Some content
           /\ (p `prefix_of` content)
           /\ (newline ∉ p) /\ (NUL ∉ p)
           /\ (length p <= 254)%nat
           /\ content <> [] /\ char_at content 0 <> NUL
     | None =>
         BIO_file h f = None
         \/ exists content, BIO_file h f = Some content
                            /\ (content = [] \/ char_at content 0 = NUL)
     end.
Proof.
  rewrite pin_from_file_run. intros [= <- <-]. split; [done|].
  unfold pin_file_line. destruct (BIO_file h f) as [content|]; [|by left].
  destruct (fgets_spec 254 content) as (Hpre & Hlen).
  destruct (c_str_spec (fgets 254 content)) as [Hcp Hcn].
  destruct (truncate_at_spec newline (c_str (fgets 254 content))) as [Htp Htn].
  destruct (Z.of_nat (strlen (fgets 254 content)) <=? 0) eqn:Hz.
  - right. exists content. split; [done|].
    assert (Hs : strlen (fgets 254 content) = 0%nat) by lia.
    destruct content as [|x r]; [by left|right].
    unfold strlen in Hs. simpl in *. unfold char_at. simpl.
    destruct (decide (x = newline)) as [->|Hx]; simpl in Hs.
    + by destruct (decide (newline = NUL)).
    + by destruct (decide (x = NUL)).
  - exists content. split; [done|].
    assert (Hs : (0 < strlen (fgets 254 content))%nat) by lia.
    split; [by etrans; [|etrans]|]. split; [done|].
    split; [by eapply prefix_not_elem|].
    split.
    { apply prefix_length in Htp, Hcp. lia. }
    destruct content as [|x r]; [by simpl in Hs|]. split; [done|].
    unfold strlen in Hs. simpl in *. unfold char_at. simpl.
    destruct (decide (x = newline)) as [->|Hx]; simpl in Hs.
    + by vm_compute.
    + destruct (decide (x = NUL)); [simpl in Hs; lia | done].
Qed.

(** The file [/p] holds the line 9999 and more: the PIN is 9999. *)
Lemma pin_from_file_line_witness :
  exists m',
    pin_from_file plain_host (cs "/p") fresh = Some (Some (cs "9999"), m')
    /\ log m' = [EvFileOpen (cs "/p")].
Proof.
  eexists. split; [vm_compute; reflexivity|].
  apply (pin_from_file_line plain_host (cs "/p") fresh (Some (cs "9999")) _
           eq_refl).
Defined.

(** ** [slot-id=] values *)

(** X7.  A [slot-id=] value that begins with digits is read up to the
    last of them and is no error: the slot id becomes the number the
    digits write (cut to an [int] as [atoi] does; the number itself when
    it is below 2^31), the log is unchanged, and whatever follows the
    digits is ignored: the segment does what the segment with the digits
    alone does. *)
Theorem slot_id_trailing_garbage h d rest m :
  slotid (ctx m) = 0 ->
  d <> [] ->
  Forall (fun c => isdigit c = true) d ->
  isdigit (char_at rest 0) = false ->
  exists m',
    pkcs11_parse_item h (cs "slot-id=" ++ d ++ rest) m = Some (true, m')
    /\ slotid (ctx m') = to_CK_ULONG (to_int (Z.min LONG_MAX (decimal d)))
    /\ (decimal d < 2 ^ 31 -> slotid (ctx m') = decimal d)
    /\ log m' = log m
    /\ pkcs11_parse_item h (cs "slot-id=" ++ d) m = Some (true, m').
Proof.
  intros Hs Hne Hd Hrest.
  rewrite (item_slot_id h (d ++ rest) m Hs), (item_slot_id h d m Hs).
  rewrite (atoi_digits d rest Hne Hd Hrest).
  assert (Hnil : isdigit (char_at [] 0) = false) by reflexivity.
  pose proof (atoi_digits d [] Hne Hd Hnil) as Hd0.
  rewrite app_nil_r in Hd0. rewrite Hd0.
  eexists. split; [reflexivity|]. cbn [ctx log slotid set_slotid].
  split; [done|]. split; [|by split].
  intros Hsmall. apply slot_value_small.
  split; [by apply decimal_nonneg | done].
Qed.

(** [slot-id=12abc] selects slot 12. *)
Lemma slot_id_trailing_garbage_witness :
  exists m',
    pkcs11_parse_item plain_host (cs "slot-id=12abc") fresh = Some (true, m')
    /\ slotid (ctx m') = 12.
Proof.
  destruct (slot_id_trailing_garbage plain_host (cs "12") (cs "abc") fresh)
    as (m' & Hrun & _ & Hval & _).
  - reflexivity.
  - discriminate.
  - repeat constructor.
  - reflexivity.
  - exists m'. split; [exact Hrun|]. apply Hval. reflexivity.
Defined.

(** ** Segments the parser does not know *)

Section unknown_segments.

Local Opaque strncmp.

Lemma item_unrecognized h p m :
  recognized p = false -> pkcs11_parse_item h p m = Some (true, m).
Proof.
  unfold recognized. intros Hr.
  repeat (apply orb_false_elim in Hr as [Hr ?]).
  unfold pkcs11_parse_item. munfold.
  repeat match goal with H : (strncmp _ _ _ =? 0) = false |- _ =>
           rewrite H; clear H end.
  reflexivity.
Qed.

End unknown_segments.

(** X8.  A URI whose segments pass none of the eleven key
    tests parses successfully and leaves the context and the log exactly
    as they were. *)
Theorem unrecognized_segments_ignored h uri store m :
  Forall (fun p => recognized p = false) (segments uri) ->
  pkcs11_parse_items h uri store m = Some (true, m).
Proof.
  rewrite pkcs11_parse_items_segments.
  generalize (segments uri). intros segs Hall.
  induction Hall as [|p segs Hp _ IH]; [done|].
  by rewrite parse_segments_cons, (item_unrecognized h p m Hp).
Qed.

Lemma unrecognized_segments_ignored_witness :
  pkcs11_parse_items plain_host (cs "vendor=acme;x-flag;ID=01") false fresh
  = Some (true, fresh).
Proof.
  apply (unrecognized_segments_ignored plain_host
           (cs "vendor=acme;x-flag;ID=01") false fresh).
  repeat constructor.
Defined.

(** ** [pin-source=] *)

Lemma pin_source_tests (v : bytes) :
  (strncmp (cs "pin-source=" ++ v) (cs "pin-value=") 10 =? 0) = false
  /\ (strncmp (cs "pin-source=" ++ v) (cs "pin-source=") 11 =? 0) = true
  /\ drop 11 (cs "pin-source=" ++ v) = v.
Proof. by repeat split. Qed.

Lemma NUL_not_in_file : NUL ∉ cs "file:".
Proof.
  intros Hin.
  repeat (apply elem_of_cons in Hin as [Hin|Hin]; [discriminate|]).
  by apply elem_of_nil in Hin.
Qed.

Section pin_source.

Local Opaque strncmp.

(** X9.  With no PIN in the context, a [pin-source=] segment
    succeeds exactly when its value is [file:] followed by the name of a
    file that yields a PIN; any other source fails the segment without
    touching the state, and on success the recorded length is that of the
    PIN. *)
Theorem pin_source_needs_readable_file h v m :
  pin (ctx m) = None ->
  exists b m',
    pkcs11_parse_item h (cs "pin-source=" ++ v) m = Some (b, m')
    /\ (b = true <->
        exists f, v = cs "file:" ++ f /\ is_Some (pin_file_line h f))
    /\ ((forall f, v <> cs "file:" ++ f) -> b = false /\ m' = m)
    /\ (b = true -> pinlen (ctx m') = Z.of_nat (length (default [] (pin (ctx m'))))).
Proof.
  intros Hpin. destruct (pin_source_tests v) as (T1 & T2 & T3).
  unfold pkcs11_parse_item. munfold. rewrite T1, T2, T3, Hpin.
  rewrite bool_decide_eq_true_2 by done. cbn [andb].
  destruct (strncmp v (cs "file:") 5 =? 0) eqn:Hfile.
  - apply Z.eqb_eq in Hfile.
    destruct (strncmp_key_prefix v (cs "file:") NUL_not_in_file Hfile)
      as [f ->].
    change (drop 5 (cs "file:" ++ f)) with f.
    rewrite pin_from_file_run. cbn [ctx log].
    destruct (pin_file_line h f) as [line|] eqn:Hline.
    + eexists _, _. split; [reflexivity|]. split; [|split].
      * split; [|done]. intros _. exists f. split; [done|]. rewrite Hline.
        by eexists.
      * intros Hno. by destruct (Hno f).
      * intros _. simpl. unfold strlen.
        unfold pin_file_line in Hline. destruct (BIO_file h f); [|done].
        case_match; [done|]. injection Hline as <-.
        f_equal. f_equal. apply c_str_no_NUL.
        destruct (c_str_spec (fgets 254 l)) as [_ Hc].
        destruct (truncate_at_spec newline (c_str (fgets 254 l))) as [Hp _].
        by eapply prefix_not_elem.
    + eexists _, _. split; [reflexivity|]. split; [|split].
      * split; [done|]. intros (f' & Hf' & Hsome).
        apply app_inv_head in Hf'. subst f'. rewrite Hline in Hsome.
        by destruct Hsome.
      * intros Hno. by destruct (Hno f).
      * done.
  - eexists _, _. split; [reflexivity|]. split; [|split].
    + split; [done|]. intros (f & -> & _).
      pose proof (strncmp_app_key (cs "file:") f NUL_not_in_file) as Hk.
      change (length (cs "file:")) with 5%nat in Hk. by rewrite Hk in Hfile.
    + intros _. by split.
    + done.
Qed.

End pin_source.

Lemma pin_source_needs_readable_file_witness :
  exists m',
    pkcs11_parse_item plain_host (cs "pin-source=env:PIN") fresh
    = Some (false, m')
    /\ m' = fresh.
Proof.
  destruct (pin_source_needs_readable_file plain_host (cs "env:PIN") fresh
              eq_refl) as (b & m' & Hrun & _ & Hother & _).
  destruct Hother as [-> ->].
  { intros f. discriminate. }
  exists fresh. split; [exact Hrun | reflexivity].
Defined.

(** ** URIs put together *)

Lemma segments_loop_app (a q : bytes) : forall p,
  segments_loop (a ++ ";"%char :: q) p
  = segments_loop a p ++ segments_loop q [].
Proof.
  induction a as [|x a IH]; intros p; simpl.
  - done.
  - case_bool_decide.
    + by rewrite IH, app_assoc.
    + apply IH.
Qed.

Lemma segments_app (u1 u2 : bytes) :
  NUL ∉ u1 ->
  segments (u1 ++ ";"%char :: u2) = segments u1 ++ segments u2.
Proof.
  intros Hn. unfold segments.
  rewrite (c_str_app_NUL_free u1 _ Hn), (c_str_no_NUL u1 Hn).
  change (c_str (";"%char :: u2)) with (";"%char :: c_str u2).
  apply segments_loop_app.
Qed.

(** X10.  Parsing [u1;u2] is parsing [u1] and, when that
    succeeds, parsing [u2] from the state it left; a failure or a crash in
    [u1] is the result of the whole. *)
Theorem parse_items_concat h u1 u2 store m :
  NUL ∉ u1 ->
  pkcs11_parse_items h (u1 ++ ";"%char :: u2) store m
  = match pkcs11_parse_items h u1 store m with
    | Some (true, m1) => pkcs11_parse_items h u2 store m1
    | r => r
    end.
Proof.
  intros Hn. rewrite !pkcs11_parse_items_segments, (segments_app u1 u2 Hn).
  rewrite parse_segments_app.
  destruct (parse_segments h (segments u1) m) as [[[] m1]|]; [|done..].
  by rewrite pkcs11_parse_items_segments.
Qed.

Lemma parse_items_concat_witness :
  pkcs11_parse_items plain_host (cs "id=01" ++ ";"%char :: cs "type=cert")
    false fresh
  = match pkcs11_parse_items plain_host (cs "id=01") false fresh with
    | Some (true, m1) => pkcs11_parse_items plain_host (cs "type=cert") false m1
    | r => r
    end.
Proof.
  apply (parse_items_concat plain_host (cs "id=01") (cs "type=cert") false fresh).
  intros Hin.
  repeat (apply elem_of_cons in Hin as [Hin|Hin]; [discriminate|]).
  by apply elem_of_nil in Hin.
Defined.

(** ** The shape of the segments *)

Lemma segments_loop_ok (q : bytes) : forall p,
  (";"%char ∉ p) -> (NUL ∉ p) -> (NUL ∉ q) ->
  Forall segment_ok (segments_loop q p).
Proof.
  induction q as [|x q IH]; intros p Hsep Hnul Hq; simpl.
  - case_bool_decide; [done|]. by repeat constructor.
  - assert (Hq' : NUL ∉ q) by (intros Hin; apply Hq; by right).
    case_bool_decide as Hx.
    + apply Forall_app. split.
      * case_bool_decide; [done|]. by repeat constructor.
      * apply IH; [| |done]; intros Hin; by apply elem_of_nil in Hin.
    + apply IH; [| |done].
      * intros Hin. apply elem_of_app in Hin as [Hin|Hin]; [done|].
        apply list_elem_of_singleton in Hin. congruence.
      * intros Hin. apply elem_of_app in Hin as [Hin|Hin]; [done|].
        apply list_elem_of_singleton in Hin. subst x. apply Hq. left.
Qed.

Lemma segments_join (l : list bytes) :
  Forall segment_ok l -> segments_loop (join_segments l) [] = l.
Proof.
  induction l as [|s l IH]; intros Hall; [done|].
  inversion Hall as [|? ? (Hne & Hsep & Hnul) Hrest]; subst.
  destruct l as [|s' l].
  - destruct s as [|x s0]; [done|]. simpl.
    rewrite bool_decide_eq_false_2.
    + rewrite segments_loop_acc; [done|done|].
      intros Hin. apply Hsep. by right.
    + intros ->. apply Hsep. left.
  - change (join_segments (s :: s' :: l))
      with (s ++ ";"%char :: join_segments (s' :: l)).
    rewrite (segments_loop_sep s _ [] Hsep); [|done].
    by rewrite (IH Hrest).
Qed.

(** X11.  The segments the scan finds are never empty and hold
    neither [;] nor NUL, and they are all there is to the URI: joined by
    [;] and scanned again they come back unchanged. *)
Theorem segments_shape (uri : bytes) :
  Forall segment_ok (segments uri)
  /\ segments (join_segments (segments uri)) = segments uri.
Proof.
  assert (Hok : Forall segment_ok (segments uri)).
  { apply segments_loop_ok.
    - intros Hin. by apply elem_of_nil in Hin.
    - intros Hin. by apply elem_of_nil in Hin.
    - apply c_str_spec. }
  split; [done|].
  unfold segments at 1. rewrite c_str_no_NUL; [by apply segments_join|].
  generalize dependent (segments uri). clear. intros l Hall.
  induction Hall as [|s l (Hne & Hsep & Hnul) Hrest IH].
  - intros Hin. by apply elem_of_nil in Hin.
  - destruct l as [|s' l]; [done|].
    change (join_segments (s :: s' :: l))
      with (s ++ ";"%char :: join_segments (s' :: l)).
    intros Hin. apply elem_of_app in Hin as [Hin|Hin]; [done|].
    apply elem_of_cons in Hin as [Heq|Hin]; [discriminate | done].
Qed.

(** ** What a parse leaves behind *)

Section parse_stages.

Local Opaque strncmp urldecode pkcs11_pad atoi.

Lemma parse_uri_selector h path m m' :
  pkcs11_parse_uri h path false m = Some (true, m') ->
  is_Some (id (ctx m')) \/ is_Some (label (ctx m')).
Proof.
  unfold pkcs11_parse_uri. munfold. intros Hrun.
  destruct (strncmp path (cs "pkcs11:") 7 =? 0).
  - destruct (pkcs11_parse_items h (drop 7 path) false m) as [[[] m1]|];
      simpl in Hrun; [|done..].
    destruct (id (ctx m1)) eqn:Hid; [simplify_eq/=; left; by eexists|].
    destruct (label (ctx m1)) eqn:Hl; [simplify_eq/=; right; by eexists|].
    done.
  - simpl in Hrun. destruct (urldecode (c_str path)); [|done].
    simplify_eq/=. left. by eexists.
Qed.

Lemma parse_module_path_stage h m b m' :
  pkcs11_parse_module_path h m = Some (b, m') ->
  id (ctx m') = id (ctx m) /\ label (ctx m') = label (ctx m)
  /\ pin (ctx m') = pin (ctx m) /\ type (ctx m') = type (ctx m)
  /\ idlen (ctx m') = idlen (ctx m) /\ pinlen (ctx m') = pinlen (ctx m)
  /\ (b = true -> is_Some (module_path (ctx m')))
  /\ (forall q, module_path (ctx m) = Some q ->
                module_path (ctx m') = Some q /\ log m' = log m)
  /\ (log m' = log m \/ log m' = log m ++ [EvGetenv]).
Proof.
  unfold pkcs11_parse_module_path. munfold. intros Hrun. cbv beta in Hrun.
  destruct (module_path (ctx m)) as [q|] eqn:Hq.
  - rewrite bool_decide_eq_false_2 in Hrun by done. simplify_eq/=.
    repeat split; eauto; try done; congruence.
  - rewrite bool_decide_eq_true_2 in Hrun by done. simpl in Hrun.
    destruct (getenv_PKCS11_MODULE_PATH h) as [env|]; simpl in Hrun;
      simplify_eq/=; repeat split; eauto; done.
Qed.

Lemma parse_pin_stage h store m b m' :
  pkcs11_parse_pin h store m = Some (b, m') ->
  id (ctx m') = id (ctx m) /\ label (ctx m') = label (ctx m)
  /\ module_path (ctx m') = module_path (ctx m)
  /\ type (ctx m') = type (ctx m) /\ idlen (ctx m') = idlen (ctx m)
  /\ (b = true -> store = false -> is_Some (pin (ctx m')))
  /\ (forall p, pin (ctx m) = Some p ->
                pin (ctx m') = Some p /\ pinlen (ctx m') = pinlen (ctx m)
                /\ log m' = log m)
  /\ (forall p, pin (ctx m') = Some p -> pin (ctx m) = None ->
                pinlen (ctx m') = Z.of_nat (strlen p))
  /\ (log m' = log m \/ log m' = log m ++ [EvPrompt]).
Proof.
  unfold pkcs11_parse_pin, pkcs11_get_console_pin. munfold. intros Hrun.
  cbv beta in Hrun.
  destruct (pin (ctx m)) as [p|] eqn:Hp.
  - rewrite bool_decide_eq_false_2 in Hrun by done. simpl in Hrun.
    simplify_eq/=. repeat split; eauto; try done; congruence.
  - rewrite bool_decide_eq_true_2 in Hrun by done. simpl in Hrun.
    repeat case_match; simplify_eq/=; repeat split; eauto; try done;
      intros; by simplify_eq/=.
Qed.

End parse_stages.

(** X12.  After a successful [pkcs11_parse] the module path is
    set; in direct-key context the PIN is set as well, and so is the id or
    the label. *)
Theorem parse_success_guarantees h path store m m' :
  pkcs11_parse h path store m = Some (true, m') ->
  is_Some (module_path (ctx m'))
  /\ (store = false ->
      is_Some (pin (ctx m'))
      /\ (is_Some (id (ctx m')) \/ is_Some (label (ctx m')))).
Proof.
  destruct path as [path|]; [|done]. rewrite pkcs11_parse_stages.
  destruct (pkcs11_parse_uri h path store m) as [[[] m1]|] eqn:Huri; [|done..].
  destruct (pkcs11_parse_module_path h m1) as [[[] m2]|] eqn:Hmod; [|done..].
  intros Hpin.
  destruct (parse_module_path_stage _ _ _ _ Hmod)
    as (Hid2 & Hl2 & _ & _ & _ & _ & Hmp2 & _).
  destruct (parse_pin_stage _ _ _ _ _ Hpin)
    as (Hid3 & Hl3 & Hmp3 & _ & _ & Hp3 & _).
  split; [rewrite Hmp3; by apply Hmp2|].
  intros ->. split; [by apply Hp3|].
  rewrite Hid3, Hl3, Hid2, Hl2. by apply (parse_uri_selector h path m).
Qed.

Lemma parse_success_guarantees_witness :
  exists m',
    pkcs11_parse plain_host (Some (cs "pkcs11:object=test;type=private")) false
      with_module_path
    = Some (true, m')
    /\ is_Some (module_path (ctx m')) /\ is_Some (pin (ctx m')).
Proof.
  eexists. split; [vm_compute; reflexivity|].
  destruct (parse_success_guarantees plain_host
              (Some (cs "pkcs11:object=test;type=private")) false
              with_module_path _ eq_refl) as [Hmp Hrest].
  split; [exact Hmp|]. exact (proj1 (Hrest eq_refl)).
Defined.

(** ** Lengths *)

Section lengths.

Local Opaque strncmp urldecode pkcs11_pad atoi.

Lemma item_lengths_ok h p m b m' :
  pkcs11_parse_item h p m = Some (b, m') ->
  lengths_ok (ctx m) -> lengths_ok (ctx m').
Proof.
  intros Hrun [Hid Hpin]. item_cases Hrun; split; simpl; try done;
    intros; simplify_eq/=; eauto.
Qed.

Lemma segments_lengths_ok h segs : forall m b m',
  parse_segments h segs m = Some (b, m') ->
  lengths_ok (ctx m) -> lengths_ok (ctx m').
Proof.
  induction segs as [|p segs IH]; intros m b m' Hrun Hok.
  - by injection Hrun as <- <-.
  - rewrite parse_segments_cons in Hrun.
    destruct (pkcs11_parse_item h p m) as [[[] m1]|] eqn:E; [|simplify_eq|done].
    + eapply IH; [done|]. by eapply item_lengths_ok.
    + by eapply item_lengths_ok.
Qed.

Lemma parse_uri_lengths_ok h path store m b m' :
  pkcs11_parse_uri h path store m = Some (b, m') ->
  lengths_ok (ctx m) -> lengths_ok (ctx m').
Proof.
  unfold pkcs11_parse_uri. munfold. intros Hrun Hok.
  destruct (strncmp path (cs "pkcs11:") 7 =? 0).
  - rewrite pkcs11_parse_items_segments in Hrun.
    destruct (parse_segments h (segments (drop 7 path)) m) as [[b1 m1]|] eqn:E;
      [|done].
    pose proof (segments_lengths_ok _ _ _ _ _ E Hok).
    destruct b1; simpl in Hrun; repeat case_match; by simplify_eq/=.
  - simpl in Hrun. destruct (urldecode (c_str path)) as [d|]; [|done].
    simplify_eq/=. destruct Hok as [_ Hpin]. split; simpl; [|done].
    by intros ? [= <-].
Qed.

End lengths.

(** X13.  [pkcs11_parse] keeps the recorded lengths in step:
    when [idlen] and [pinlen] are the [strlen] of the id and the PIN before
    the parse, they are after it, however it ends. *)
Theorem parse_keeps_lengths h path store m b m' :
  lengths_ok (ctx m) ->
  pkcs11_parse h path store m = Some (b, m') ->
  lengths_ok (ctx m').
Proof.
  intros Hok. destruct path as [path|]; [|by intros [= <- <-]].
  rewrite pkcs11_parse_stages.
  destruct (pkcs11_parse_uri h path store m) as [[b1 m1]|] eqn:Huri; [|done].
  pose proof (parse_uri_lengths_ok _ _ _ _ _ _ Huri Hok) as Hok1.
  destruct b1; [|by intros [= <- <-]].
  destruct (pkcs11_parse_module_path h m1) as [[b2 m2]|] eqn:Hmod; [|done].
  destruct (parse_module_path_stage _ _ _ _ Hmod)
    as (Hid2 & _ & Hp2 & _ & Hil2 & Hpl2 & _).
  assert (Hok2 : lengths_ok (ctx m2)).
  { destruct Hok1 as [Hi Hp]. split.
    - rewrite Hid2, Hil2. apply Hi.
    - rewrite Hp2, Hpl2. apply Hp. }
  destruct b2; [|by intros [= <- <-]].
  intros Hpin.
  destruct (parse_pin_stage _ _ _ _ _ Hpin)
    as (Hid3 & _ & _ & _ & Hil3 & _ & Hkeep & Hnew & _).
  destruct Hok2 as [Hi Hp]. split.
  - rewrite Hid3, Hil3. apply Hi.
  - intros p Hp'. destruct (pin (ctx m2)) as [p0|] eqn:E.
    + destruct (Hkeep p0 eq_refl) as (Hsame & Hlen & _).
      rewrite Hlen. apply Hp. congruence.
    + by apply Hnew.
Qed.

Lemma parse_keeps_lengths_witness :
  exists m',
    pkcs11_parse plain_host (Some (cs "pkcs11:id=%41%00%42")) false
      with_module_path
    = Some (true, m')
    /\ lengths_ok (ctx m').
Proof.
  eexists. split; [vm_compute; reflexivity|].
  apply (parse_keeps_lengths plain_host (Some (cs "pkcs11:id=%41%00%42")) false
           with_module_path true).
  - split; intros b; discriminate.
  - reflexivity.
Defined.

(** ** The calls of a parse *)

Section parse_calls.

Variable h : host.

Local Opaque strncmp urldecode pkcs11_pad atoi.

Lemma pkcs11_parse_uri_opens_files path store :
  emits opens_file (pkcs11_parse_uri h path store).
Proof.
  assert (Hfile : forall f, emits opens_file (pin_from_file h f)).
  { intros f. unfold pin_from_file. repeat emits_step. }
  assert (Hitem : forall p, emits opens_file (pkcs11_parse_item h p)).
  { intros p. unfold pkcs11_parse_item.
    repeat first [ apply Hfile | emits_step ]. }
  assert (Hfound : forall p, emits opens_file (parse_items_found h p)).
  { intros p. unfold parse_items_found.
    repeat first [ apply Hitem | emits_step ]. }
  assert (Hloop : forall q p, emits opens_file (parse_items_loop h q p)).
  { induction q as [|x q IH]; intros p; cbn [parse_items_loop];
      [apply Hfound|].
    repeat first [ apply Hfound | apply IH | emits_step ]. }
  unfold pkcs11_parse_uri, pkcs11_parse_items.
  repeat first [ apply Hloop | emits_step ].
Qed.

End parse_calls.

(** X14.  Whatever a parse does outside the engine comes in one
    order: the PIN files it opens, then at most one look at the
    environment, then at most one prompt. *)
Theorem parse_calls_in_order h path store m b m' :
  pkcs11_parse h path store m = Some (b, m') ->
  exists evs, log m' = log m ++ evs /\ parse_calls_shape evs.
Proof.
  unfold parse_calls_shape.
  destruct path as [path|].
  2:{ intros [= <- <-]. exists []. rewrite app_nil_r. split; [done|].
      exists [], [], []. repeat split; auto. }
  rewrite pkcs11_parse_stages.
  destruct (pkcs11_parse_uri h path store m) as [[b1 m1]|] eqn:Huri; [|done].
  destruct (pkcs11_parse_uri_opens_files h path store _ _ _ Huri)
    as (files & Hl1 & Hfiles).
  destruct b1.
  2:{ intros [= <- <-]. exists files. split; [done|].
      exists files, [], []. rewrite !app_nil_r. repeat split; auto. }
  destruct (pkcs11_parse_module_path h m1) as [[b2 m2]|] eqn:Hmod; [|done].
  destruct (parse_module_path_stage _ _ _ _ Hmod)
    as (_ & _ & _ & _ & _ & _ & _ & _ & Hl2).
  assert (Henv : exists env, log m2 = log m1 ++ env
                             /\ (env = [] \/ env = [EvGetenv])).
  { destruct Hl2 as [-> | ->]; [exists [] | exists [EvGetenv]];
      rewrite ?app_nil_r; auto. }
  destruct Henv as (env & Hl2' & Henv).
  destruct b2.
  2:{ intros [= <- <-]. exists (files ++ env). split.
      - by rewrite Hl2', Hl1, app_assoc.
      - exists files, env, []. rewrite !app_nil_r. repeat split; auto. }
  intros Hpin.
  destruct (parse_pin_stage _ _ _ _ _ Hpin)
    as (_ & _ & _ & _ & _ & _ & _ & _ & Hl3).
  assert (Hpr : exists pr, log m' = log m2 ++ pr
                           /\ (pr = [] \/ pr = [EvPrompt])).
  { destruct Hl3 as [-> | ->]; [exists [] | exists [EvPrompt]];
      rewrite ?app_nil_r; auto. }
  destruct Hpr as (pr & Hl3' & Hpr).
  exists (files ++ env ++ pr). split.
  - by rewrite Hl3', Hl2', Hl1, <- !app_assoc.
  - exists files, env, pr. repeat split; auto.
Qed.

Lemma parse_calls_in_order_witness :
  exists m',
    pkcs11_parse plain_host (Some (cs "pkcs11:id=01;pin-source=file:/p")) false
      fresh
    = Some (false, m')
    /\ exists evs, log m' = log fresh ++ evs /\ parse_calls_shape evs.
Proof.
  eexists. split; [vm_compute; reflexivity|].
  apply (parse_calls_in_order plain_host
           (Some (cs "pkcs11:id=01;pin-source=file:/p")) false fresh false).
  reflexivity.
Defined.

(** ** Fields that survive a parse *)

Section parse_keeps.

Local Opaque strncmp urldecode pkcs11_pad atoi.

Lemma parse_uri_keeps h a path store m b m' v :
  pkcs11_parse_uri h path store m = Some (b, m') ->
  (a = A_id -> strncmp path (cs "pkcs11:") 7 = 0) ->
  guarded_field a (ctx m) = Some v ->
  guarded_field a (ctx m') = Some v.
Proof.
  unfold pkcs11_parse_uri. munfold. intros Hrun Ha Hf.
  destruct (strncmp path (cs "pkcs11:") 7 =? 0) eqn:Hs.
  - rewrite pkcs11_parse_items_segments in Hrun.
    destruct (parse_segments h (segments (drop 7 path)) m) as [[b1 m1]|] eqn:E;
      [|done].
    pose proof (segments_preserve_guarded _ a _ _ _ _ _ E Hf).
    destruct b1; simpl in Hrun; repeat case_match; by simplify_eq/=.
  - simpl in Hrun. destruct (urldecode (c_str path)) as [d|]; [|done].
    simplify_eq/=. destruct a; simpl in *; try done.
    specialize (Ha eq_refl). rewrite Ha in Hs. done.
Qed.

Lemma parse_uri_bare h path store m :
  strncmp path (cs "pkcs11:") 7 <> 0 ->
  pkcs11_parse_uri h path store m
  = match urldecode (c_str path) with
    | Some d =>
        Some (true,
              mkMachine (set_idlen (Z.of_nat (strlen d))
                           (set_id (Some d) (ctx m))) (log m))
    | None => None
    end.
Proof.
  intros Hs. unfold pkcs11_parse_uri. munfold.
  destruct (strncmp path (cs "pkcs11:") 7 =? 0) eqn:E; [lia|].
  by destruct (urldecode (c_str path)).
Qed.

Lemma parse_uri_pin_set_log h path store m b m' p :
  pkcs11_parse_uri h path store m = Some (b, m') ->
  pin (ctx m) = Some p -> log m' = log m.
Proof.
  unfold pkcs11_parse_uri. munfold. intros Hrun Hp.
  destruct (strncmp path (cs "pkcs11:") 7 =? 0) eqn:Hs.
  - rewrite pkcs11_parse_items_segments in Hrun.
    destruct (parse_segments h (segments (drop 7 path)) m) as [[b1 m1]|] eqn:E;
      [|done].
    pose proof (segments_pin_set_log _ _ _ _ _ _ E Hp).
    destruct b1; simpl in Hrun; repeat case_match; by simplify_eq/=.
  - simpl in Hrun. destruct (urldecode (c_str path)) as [d|]; [|done].
    by simplify_eq/=.
Qed.

End parse_keeps.

Lemma stage_keeps_guarded a (m1 m2 : machine) v :
  id (ctx m2) = id (ctx m1) -> label (ctx m2) = label (ctx m1) ->
  type (ctx m2) = type (ctx m1) ->
  (forall p, pin (ctx m1) = Some p -> pin (ctx m2) = Some p) ->
  (forall q, module_path (ctx m1) = Some q -> module_path (ctx m2) = Some q) ->
  guarded_field a (ctx m1) = Some v -> guarded_field a (ctx m2) = Some v.
Proof.
  intros Hid Hl Ht Hp Hq. destruct a; simpl; rewrite ?Hid, ?Hl, ?Ht; auto.
Qed.

Lemma pkcs11_parse_fields h path store m b m' :
  pkcs11_parse h (Some path) store m = Some (b, m') ->
  (forall a v,
     (a = A_id -> strncmp path (cs "pkcs11:") 7 = 0) ->
     guarded_field a (ctx m) = Some v ->
     guarded_field a (ctx m') = Some v)
  /\ (strncmp path (cs "pkcs11:") 7 <> 0 ->
      id (ctx m') = urldecode (c_str path)).
Proof.
  rewrite pkcs11_parse_stages. intros Hrun.
  destruct (pkcs11_parse_uri h path store m) as [[b1 m1]|] eqn:Huri; [|done].
  assert (Hbare1 : strncmp path (cs "pkcs11:") 7 <> 0 ->
                   id (ctx m1) = urldecode (c_str path)).
  { intros Hs. rewrite (parse_uri_bare h path store m Hs) in Huri.
    destruct (urldecode (c_str path)); by simplify_eq/=. }
  destruct b1.
  2:{ simplify_eq. split; [|done]. intros a v Ha.
      by apply (parse_uri_keeps _ _ _ _ _ _ _ _ Huri). }
  destruct (pkcs11_parse_module_path h m1) as [[b2 m2]|] eqn:Hmod; [|done].
  destruct (parse_module_path_stage _ _ _ _ Hmod)
    as (Hid2 & Hl2 & Hp2 & Ht2 & _ & _ & _ & Hq2 & _).
  assert (K2 : forall a v, guarded_field a (ctx m1) = Some v ->
                           guarded_field a (ctx m2) = Some v).
  { intros a v. apply stage_keeps_guarded; auto.
    - intros p. by rewrite Hp2.
    - intros q Hq. by apply Hq2. }
  destruct b2.
  2:{ simplify_eq. split; [|by rewrite Hid2]. intros a v Ha Hf.
      apply K2. by apply (parse_uri_keeps _ _ _ _ _ _ _ _ Huri). }
  destruct (parse_pin_stage _ _ _ _ _ Hrun)
    as (Hid3 & Hl3 & Hq3 & Ht3 & _ & _ & Hp3 & _).
  split; [|by rewrite Hid3, Hid2].
  intros a v Ha Hf.
  apply (stage_keeps_guarded a m2 m'); auto.
  - intros p Hp. by apply Hp3.
  - intros q. by rewrite Hq3.
  - apply K2. by apply (parse_uri_keeps _ _ _ _ _ _ _ _ Huri).
Qed.

(** X15.  Nothing resets the context between parses: a PIN,
    label, type or module path that is set survives any parse, and so does
    the id under a [pkcs11:] URI, so a second URI with another [id=] still
    names the first id.  Only a bare identifier replaces the id. *)
Theorem parse_keeps_set_fields h path store m b m' :
  pkcs11_parse h (Some path) store m = Some (b, m') ->
  (forall a v,
     (a = A_id -> strncmp path (cs "pkcs11:") 7 = 0) ->
     guarded_field a (ctx m) = Some v ->
     guarded_field a (ctx m') = Some v)
  /\ (strncmp path (cs "pkcs11:") 7 <> 0 ->
      id (ctx m') = urldecode (c_str path)).
Proof. apply pkcs11_parse_fields. Qed.

Lemma parse_keeps_set_fields_witness :
  exists m1 m2,
    pkcs11_parse plain_host (Some (cs "pkcs11:id=01")) false preset
    = Some (true, m1)
    /\ pkcs11_parse plain_host (Some (cs "pkcs11:id=02")) false m1
       = Some (true, m2)
    /\ id (ctx m2) = Some (cs "01").
Proof.
  pose (m1 := mkMachine (set_idlen 2 (set_id (Some (cs "01")) (ctx preset))) []).
  exists m1, m1. split; [reflexivity|]. split; [reflexivity|].
  destruct (parse_keeps_set_fields plain_host (cs "pkcs11:id=02") false m1
              true m1 eq_refl) as [Hkeep _].
  apply (Hkeep A_id (cs "01")); reflexivity.
Defined.

(** X16.  After the module path and the PIN were set through
    the control commands, a parse of any URI in any context makes no call
    outside the engine (no file, no environment, no prompt) and leaves
    both as the commands set them. *)
Theorem ctrl_presets_silence_parse h mp p path store m r1 m1 r2 m2 b m' :
  pkcs11_ctrl h (mkENGINE true) (PKCS11_CMD_MODULE_PATH mp) m = Some (r1, m1) ->
  pkcs11_ctrl h (mkENGINE true) (PKCS11_CMD_PIN p) m1 = Some (r2, m2) ->
  pkcs11_parse h path store m2 = Some (b, m') ->
  r1 = 1 /\ r2 = 1
  /\ log m' = log m
  /\ module_path (ctx m') = Some (c_str mp)
  /\ pin (ctx m') = Some (c_str p).
Proof.
  intros H1. unfold pkcs11_ctrl in H1. munfold. simpl in H1.
  injection H1 as <- <-.
  intros H2. unfold pkcs11_ctrl in H2. munfold. simpl in H2.
  injection H2 as <- <-.
  intros Hrun. split; [done|]. split; [done|].
  set (m2 := mkMachine _ _) in Hrun.
  assert (Hp : pin (ctx m2) = Some (c_str p)) by done.
  assert (Hq : module_path (ctx m2) = Some (c_str mp)) by done.
  assert (Hl : log m2 = log m) by done.
  destruct path as [path|]; [|by injection Hrun as <- <-].
  rewrite pkcs11_parse_stages in Hrun.
  destruct (pkcs11_parse_uri h path store m2) as [[b1 m3]|] eqn:Huri; [|done].
  pose proof (parse_uri_pin_set_log _ _ _ _ _ _ _ Huri Hp) as Hl3.
  pose proof (parse_uri_keeps h A_pin_value _ _ _ _ _ _ Huri
                ltac:(discriminate) Hp) as Hp3.
  pose proof (parse_uri_keeps h A_module_path _ _ _ _ _ _ Huri
                ltac:(discriminate) Hq) as Hq3.
  simpl in Hp3, Hq3.
  destruct b1; [|simplify_eq; by rewrite Hl3].
  destruct (pkcs11_parse_module_path h m3) as [[b2 m4]|] eqn:Hmod; [|done].
  destruct (parse_module_path_stage _ _ _ _ Hmod)
    as (_ & _ & Hp4 & _ & _ & _ & _ & Hq4 & _).
  destruct (Hq4 _ Hq3) as [Hq4' Hl4]. rewrite Hp3 in Hp4.
  destruct b2; [|simplify_eq; by rewrite Hl4, Hl3].
  destruct (parse_pin_stage _ _ _ _ _ Hrun)
    as (_ & _ & Hq5 & _ & _ & _ & Hp5 & _).
  destruct (Hp5 _ Hp4) as (Hp5' & _ & Hl5).
  by rewrite Hl5, Hl4, Hl3, Hq5.
Qed.

Lemma ctrl_presets_silence_parse_witness :
  exists m',
    pkcs11_parse plain_host
      (Some (cs "pkcs11:id=01;pin-source=file:/p;module-path=/other.so"))
      false preset
    = Some (true, m')
    /\ log m' = [] /\ module_path (ctx m') = Some (cs "/lib/p11.so")
    /\ pin (ctx m') = Some (cs "0000").
Proof.
  eexists. split; [vm_compute; reflexivity|].
  apply (ctrl_presets_silence_parse plain_host (cs "/lib/p11.so") (cs "0000")
           (Some (cs "pkcs11:id=01;pin-source=file:/p;module-path=/other.so"))
           false fresh 1 with_module_path 1 preset true);
    reflexivity.
Defined.

(** ** The issuer list as a set *)

(** X17.  [cert_issuer_match] takes the issuer list as a
    set: two lists with the same entries, in any order and with any
    repetitions, match the same certificates. *)
Theorem cert_issuer_match_same_entries h (l1 l2 : list bytes) x :
  (forall nm, nm ∈ l1 <-> nm ∈ l2) ->
  cert_issuer_match h (Some l1) x = cert_issuer_match h (Some l2) x.
Proof.
  intros Hsame. apply eq_iff_eq_true. rewrite !cert_issuer_match_spec.
  unfold issuer_entries. cbn [default].
  assert (Hnil : l1 = [] <-> l2 = []).
  { split; intros ->.
    - destruct l2 as [|nm l2]; [done|].
      assert (Hin : nm ∈ []) by (apply Hsame; left). by apply elem_of_nil in Hin.
    - destruct l1 as [|nm l1]; [done|].
      assert (Hin : nm ∈ []) by (apply Hsame; left). by apply elem_of_nil in Hin. }
  split; (intros [Hn | (nm & Hin & Hc)];
          [left; by apply Hnil | right; exists nm; split; [by apply Hsame | done]]).
Qed.

Lemma cert_issuer_match_same_entries_witness :
  cert_issuer_match plain_host (Some [cs "CN=A"; cs "CN=B"; cs "CN=A"]) ca_cert
  = cert_issuer_match plain_host (Some [cs "CN=B"; cs "CN=A"]) ca_cert.
Proof.
  apply (cert_issuer_match_same_entries plain_host
           [cs "CN=A"; cs "CN=B"; cs "CN=A"] [cs "CN=B"; cs "CN=A"] ca_cert).
  intros nm. rewrite !elem_of_cons, !elem_of_nil. tauto.
Defined.

(** ** The prompt of client-certificate selection *)

(** The loop returns, keeps the PIN and only adds to the log. *)
Lemma client_cert_loop_keeps_pin h session ca_dn certs : forall m,
  exists r m' rest,
    client_cert_loop h session ca_dn certs m = Some (r, m')
    /\ pin (ctx m') = pin (ctx m) /\ pinlen (ctx m') = pinlen (ctx m)
    /\ log m' = log m ++ EvNextCert session :: rest.
Proof.
  induction certs as [|[[x cid] len] certs IH]; intros m;
    cbn [client_cert_loop]; munfold.
  - eexists _, _, []. by repeat split.
  - cbn [ctx log].
    destruct (cert_issuer_match h ca_dn x
              && negb (X509_check_purpose_ssl_client x =? 0)).
    + cbn [ctx log]. case_match; eexists _, _, _;
        (split; [reflexivity|]); cbn [ctx log];
        (split; [done|]); (split; [done|]);
        rewrite <- !app_assoc; cbn [app]; reflexivity.
    + destruct (IH (mkMachine (ctx m) (log m ++ [EvNextCert session])))
        as (r & m' & rest & -> & Hp & Hpl & Hl).
      exists r, m', (EvNextCert session :: rest).
      split; [done|]. split; [done|]. split; [done|].
      rewrite Hl. cbn [log]. by rewrite <- !app_assoc.
Qed.

(** X18.  Client-certificate selection with no PIN in the context
    prompts once, after the session was started and whatever the type in
    the context.  A prompt that fails ends the selection with nothing
    selected and no search: the calls are initialize, get_slot,
    start_session, the prompt and the release of the store context
    ([EVP_PKEY_free], [OSSL_STORE_unregister_loader]), and no call ends
    the session.  After an answered prompt the selection returns with the
    PIN and its length in the context, the search starts right after the
    prompt, and the store context is released last. *)
Theorem client_cert_prompts_after_session h ca_dn m session :
  pkcs11_initialize_rv h (module_path (ctx m)) = CKR_OK ->
  pkcs11_get_slot_ok h (ctx m) = true ->
  pkcs11_start_session_handle h (ctx m) = Some session ->
  pin (ctx m) = None ->
  let run := pkcs11_load_ssl_client_cert h (mkENGINE true) ca_dn m in
  let opened := [EvInitialize (module_path (ctx m)); EvGetSlot;
                 EvStartSession; EvPrompt] in
  let released := [EvPKeyFree; EvUnregisterLoader] in
  (prompt_fails (ui h) ->
   run = Some (mkClientCert 0 None None,
               mkMachine (ctx m) (log m ++ opened ++ released)))
  /\ (~ prompt_fails (ui h) ->
      exists r m',
        run = Some (r, m')
        /\ pin (ctx m') = Some (UI_input (ui h))
        /\ pinlen (ctx m') = Z.of_nat (strlen (UI_input (ui h)))
        /\ exists rest,
             log m' = log m ++ opened ++ EvSearchStart session :: rest
                            ++ released).
Proof.
  intros Hinit Hslot Hsess Hpin run opened released.
  subst run opened released.
  rewrite pkcs11_load_ssl_client_cert_run.
  unfold load_ssl_client_cert_search. munfold.
  cbn [ENGINE_get_ex_data negb].
  cbn [ctx log]. rewrite Hinit. cbn [Z.eqb CKR_OK negb].
  rewrite Hslot. cbn [negb]. rewrite Hsess, Hpin.
  rewrite bool_decide_eq_true_2 by done.
  split.
  - intros Hfail. rewrite (console_pin_fails h _ Hfail). cbn [negb ctx log].
    by rewrite <- !app_assoc.
  - intros Hok. rewrite (console_pin_answers h _ Hok). cbn [negb ctx log].
    destruct (pkcs11_search_start_ok h session _); cbn [negb].
    + match goal with
      | |- context [client_cert_loop _ _ _ _ ?m0] =>
          destruct (client_cert_loop_keeps_pin h session ca_dn
                      (token_certs h) m0)
            as (r & m' & rest & -> & Hp & Hpl & Hl)
      end.
      eexists _, _. split; [reflexivity|]. cbn [ctx log] in *.
      split; [done|]. split; [done|].
      exists (EvNextCert session :: rest). rewrite Hl.
      rewrite <- !app_assoc. reflexivity.
    + eexists _, _. split; [reflexivity|]. cbn [ctx log].
      split; [done|]. split; [done|]. exists [].
      rewrite <- !app_assoc. reflexivity.
Qed.

(** A cancelled prompt: nothing is selected, the session stays open and
    the store context is released. *)
Lemma client_cert_prompts_after_session_witness :
  pkcs11_load_ssl_client_cert (example_host ui_cancelled true three_certs)
    (mkENGINE true) None with_module_path
  = Some (mkClientCert 0 None None,
          mkMachine (ctx with_module_path)
            [EvInitialize (Some (cs "/lib/p11.so")); EvGetSlot;
             EvStartSession; EvPrompt; EvPKeyFree; EvUnregisterLoader]).
Proof.
  destruct (client_cert_prompts_after_session
              (example_host ui_cancelled true three_certs) None
              with_module_path 7 eq_refl eq_refl eq_refl eq_refl)
    as [Hcancel _].
  apply Hcancel. unfold prompt_fails. simpl. right. right. right. by left.
Defined.

(** ** What [pkcs11_engine_load_cert] releases *)

Section parse_call_log.

Variable h : host.

Local Opaque strncmp urldecode pkcs11_pad atoi.

Lemma pkcs11_parse_parse_calls path store :
  emits parse_call (pkcs11_parse h path store).
Proof.
  assert (Hfile : forall f, emits parse_call (pin_from_file h f)).
  { intros f. unfold pin_from_file. repeat emits_step. }
  assert (Hitem : forall p, emits parse_call (pkcs11_parse_item h p)).
  { intros p. unfold pkcs11_parse_item.
    repeat first [ apply Hfile | emits_step ]. }
  assert (Hfound : forall p, emits parse_call (parse_items_found h p)).
  { intros p. unfold parse_items_found.
    repeat first [ apply Hitem | emits_step ]. }
  assert (Hloop : forall q p, emits parse_call (parse_items_loop h q p)).
  { induction q as [|x q IH]; intros p; cbn [parse_items_loop];
      [apply Hfound|].
    repeat first [ apply Hfound | apply IH | emits_step ]. }
  unfold pkcs11_parse, pkcs11_parse_uri, pkcs11_parse_module_path,
    pkcs11_parse_pin, pkcs11_parse_items, pkcs11_get_console_pin.
  repeat first [ apply Hloop | emits_step ].
Qed.

End parse_call_log.

Lemma occurrences_app f (l1 l2 : list event) :
  occurrences f (l1 ++ l2) = (occurrences f l1 + occurrences f l2)%nat.
Proof. unfold occurrences. by rewrite filter_app, length_app. Qed.

Lemma occurrences_none f (l : list event) :
  Forall (fun e => f e = false) l -> occurrences f l = 0%nat.
Proof.
  unfold occurrences. induction 1 as [|e l He _ IH]; [done|].
  rewrite filter_cons. destruct (decide (f e = true)); [congruence | done].
Qed.

Lemma parse_calls_release_nothing (pre : list event) :
  Forall parse_call pre ->
  occurrences is_finalize pre = 0%nat /\ occurrences is_get_slot pre = 0%nat
  /\ occurrences is_end_session pre = 0%nat
  /\ occurrences is_start_session pre = 0%nat.
Proof.
  intros Hpre. repeat split; apply occurrences_none;
    (eapply Forall_impl; [exact Hpre|]); intros [] He; done.
Qed.

(** The search of [pkcs11_engine_load_cert], down to its [err:] label. *)
Lemma load_cert_search_releases h e uri first m r m' :
  engine_load_cert_search h e uri first m = Some (r, m') ->
  exists evs,
    log m' = log m ++ evs
    /\ occurrences is_finalize evs = occurrences is_get_slot evs
    /\ occurrences is_end_session evs = occurrences is_start_session evs
    /\ (occurrences is_start_session evs <= 1)%nat
    /\ (occurrences is_get_slot evs <= 1)%nat
    /\ (fst r = 1 ->
        fst first = CKO_CERTIFICATE /\ snd r = snd first
        /\ occurrences is_end_session evs = 1%nat
        /\ occurrences is_finalize evs = 1%nat
        /\ type (ctx m') = Some (cs "cert")).
Proof.
  unfold engine_load_cert_search. munfold. intros Hrun.
  destruct (ENGINE_get_ex_data e); cbn [negb] in Hrun.
  2:{ injection Hrun as <- <-. exists []. rewrite app_nil_r.
      repeat split; unfold occurrences; simpl; try done; lia. }
  destruct (pkcs11_parse h uri true m) as [[b1 m1]|] eqn:Hparse; [|done].
  destruct (pkcs11_parse_parse_calls h uri true _ _ _ Hparse)
    as (pre & Hl1 & Hpre).
  destruct (parse_calls_release_nothing pre Hpre) as (P1 & P2 & P3 & P4).
  destruct first as [class cert].
  assert (Hdone : forall tail,
            log m' = log m1 ++ tail ->
            exists evs, log m' = log m ++ evs
              /\ occurrences is_finalize evs = occurrences is_finalize tail
              /\ occurrences is_get_slot evs = occurrences is_get_slot tail
              /\ occurrences is_end_session evs = occurrences is_end_session tail
              /\ occurrences is_start_session evs
                 = occurrences is_start_session tail).
  { intros tail Hl. exists (pre ++ tail). split.
    - by rewrite Hl, Hl1, app_assoc.
    - rewrite !occurrences_app, P1, P2, P3, P4. by repeat split. }
  destruct b1; cbn [negb] in Hrun.
  2:{ injection Hrun as <- <-.
      destruct (Hdone []) as (evs & Hl & F1 & F2 & F3 & F4);
        [by rewrite app_nil_r|].
      exists evs. rewrite F1, F2, F3, F4.
      repeat split; unfold occurrences; simpl; try done; lia. }
  cbn [ctx log] in Hrun.
  repeat case_match; simplify_eq/=; rewrite <- ?app_assoc;
    match goal with
    | |- exists evs, log m1 ++ ?tail = _ ++ evs /\ _ =>
        destruct (Hdone tail) as (evs & Hl & F1 & F2 & F3 & F4);
          [ | exists evs; rewrite F1, F2, F3, F4; split;
              [rewrite <- ?app_assoc in Hl; exact Hl|] ]
    end.
  all: try (cbn [log]; by rewrite <- ?app_assoc).
  all: repeat split; unfold occurrences; simpl; try done; try lia;
    intros; simplify_eq/=; try lia; try done.
Qed.

(** X19.  [pkcs11_engine_load_cert] releases what it acquired:
    it calls finalize as often as it got to the slot lookup and ends a
    session as often as it tried to start one, each at most once.  It
    returns 1 only for an object of class certificate, which it hands
    back, and then the type of the context is [cert]. *)
Theorem load_cert_releases h e uri first m r m' :
  pkcs11_engine_load_cert h e uri first m = Some (r, m') ->
  exists evs,
    log m' = log m ++ evs
    /\ occurrences is_finalize evs = occurrences is_get_slot evs
    /\ occurrences is_end_session evs = occurrences is_start_session evs
    /\ (occurrences is_start_session evs <= 1)%nat
    /\ (occurrences is_get_slot evs <= 1)%nat
    /\ (fst r = 1 ->
        fst first = CKO_CERTIFICATE /\ snd r = snd first
        /\ occurrences is_end_session evs = 1%nat
        /\ occurrences is_finalize evs = 1%nat
        /\ type (ctx m') = Some (cs "cert")).
Proof.
  unfold pkcs11_engine_load_cert, free_store_ctx. munfold. intros Hrun.
  destruct (engine_load_cert_search h e uri first m) as [[r1 m1]|] eqn:Hs;
    [|done].
  cbn [ctx log] in Hrun. injection Hrun as <- <-. cbn [ctx log].
  destruct (load_cert_search_releases _ _ _ _ _ _ _ Hs)
    as (evs & Hl & F1 & F2 & F3 & F4 & Hok).
  exists (evs ++ [EvPKeyFree; EvUnregisterLoader]).
  rewrite !occurrences_app.
  replace (occurrences is_finalize [EvPKeyFree; EvUnregisterLoader])
    with 0%nat by reflexivity.
  replace (occurrences is_get_slot [EvPKeyFree; EvUnregisterLoader])
    with 0%nat by reflexivity.
  replace (occurrences is_end_session [EvPKeyFree; EvUnregisterLoader])
    with 0%nat by reflexivity.
  replace (occurrences is_start_session [EvPKeyFree; EvUnregisterLoader])
    with 0%nat by reflexivity.
  rewrite !Nat.add_0_r.
  split; [by rewrite Hl, <- !app_assoc|]. by repeat split; try apply Hok.
Qed.

Lemma load_cert_releases_witness :
  exists m' evs,
    pkcs11_engine_load_cert plain_host (mkENGINE true)
      (Some (cs "pkcs11:id=01")) (CKO_CERTIFICATE, Some ca_cert) preset
    = Some ((1, Some ca_cert), m')
    /\ log m' = log preset ++ evs
    /\ occurrences is_end_session evs = 1%nat
    /\ occurrences is_finalize evs = 1%nat.
Proof.
  assert (Hrun : exists m',
            pkcs11_engine_load_cert plain_host (mkENGINE true)
              (Some (cs "pkcs11:id=01")) (CKO_CERTIFICATE, Some ca_cert) preset
            = Some ((1, Some ca_cert), m'))
    by (eexists; vm_compute; reflexivity).
  destruct Hrun as [m' Hrun].
  destruct (load_cert_releases plain_host (mkENGINE true)
              (Some (cs "pkcs11:id=01")) (CKO_CERTIFICATE, Some ca_cert)
              preset _ _ Hrun) as (evs & Hl & _ & _ & _ & _ & Hok).
  destruct (Hok eq_refl) as (_ & _ & He & Hf & _).
  exists m', evs. split; [exact Hrun|]. split; [exact Hl|].
  split; [exact He | exact Hf].
Defined.

(** ** What client-certificate selection leaves in the context *)

Lemma client_cert_loop_ctx h session ca_dn certs : forall m r m',
  client_cert_loop h session ca_dn certs m = Some (r, m') ->
  type (ctx m') = type (ctx m)
  /\ (forall x, pcert r = Some x ->
        exists cid len, (x, cid, len) ∈ certs
                        /\ id (ctx m') = Some cid /\ idlen (ctx m') = len).
Proof.
  induction certs as [|[[x0 cid0] len0] certs IH]; intros m r m';
    cbn [client_cert_loop]; munfold.
  - intros [= <- <-]. by split.
  - cbn [ctx log].
    destruct (cert_issuer_match h ca_dn x0
              && negb (X509_check_purpose_ssl_client x0 =? 0)).
    + cbn [ctx log]. case_match; intros [= <- <-]; cbn [ctx log pcert];
        (split; [done|]); intros x [= <-]; exists cid0, len0;
        (split; [left | done]).
    + intros Hrun. destruct (IH _ _ _ Hrun) as [Ht Hx]. split; [done|].
      intros x Hp. destruct (Hx x Hp) as (cid & len & Hin & Hid & Hlen).
      exists cid, len. split; [by right | done].
Qed.

Lemma NUL_not_in_scheme : NUL ∉ cs "pkcs11:".
Proof.
  intros Hin.
  repeat (apply elem_of_cons in Hin as [Hin|Hin]; [discriminate|]).
  by apply elem_of_nil in Hin.
Qed.

(** X20.  A client-certificate selection that selects a
    certificate leaves the id of that certificate and the type [cert] in
    the context, and a later parse of any [pkcs11:] URI keeps both,
    whatever [id=] and [type=] the URI gives. *)
Theorem client_cert_selection_sticks h ca_dn m r m1 x :
  pkcs11_load_ssl_client_cert h (mkENGINE true) ca_dn m = Some (r, m1) ->
  pcert r = Some x ->
  (exists cid len, (x, cid, len) ∈ token_certs h
                   /\ id (ctx m1) = Some cid /\ idlen (ctx m1) = len)
  /\ type (ctx m1) = Some (cs "cert")
  /\ (forall u store b m2,
        pkcs11_parse h (Some (cs "pkcs11:" ++ u)) store m1 = Some (b, m2) ->
        id (ctx m2) = id (ctx m1) /\ type (ctx m2) = Some (cs "cert")).
Proof.
  intros Hrun Hx.
  assert (Hsel : (exists cid len, (x, cid, len) ∈ token_certs h
                    /\ id (ctx m1) = Some cid /\ idlen (ctx m1) = len)
                 /\ type (ctx m1) = Some (cs "cert")).
  { rewrite pkcs11_load_ssl_client_cert_run in Hrun.
    destruct (load_ssl_client_cert_search h (mkENGINE true) ca_dn m)
      as [[r0 m0]|] eqn:Hs; [|done].
    injection Hrun as <- <-. cbn [ctx]. rename Hs into Hrun.
    unfold load_ssl_client_cert_search in Hrun. munfold.
    cbn [ENGINE_get_ex_data negb ctx log] in Hrun.
    unfold pkcs11_get_console_pin in Hrun. munfold.
    repeat match type of Hrun with
    | client_cert_loop _ _ _ _ _ = _ => fail 1
    | context [if ?c then _ else _] => destruct c
    | context [match ?c with Some _ => _ | None => _ end] => destruct c
    end; cbn [negb ctx log] in Hrun;
      try (injection Hrun as <- <-; discriminate Hx);
      destruct (client_cert_loop_ctx _ _ _ _ _ _ _ Hrun) as [Ht Hsel];
      (split; [by apply Hsel | by rewrite Ht]). }
  split; [apply Hsel|]. split; [apply Hsel|].
  intros u store b m2 Hparse.
  destruct (pkcs11_parse_fields _ _ _ _ _ _ Hparse) as [Hkeep _].
  assert (Hscheme : strncmp (cs "pkcs11:" ++ u) (cs "pkcs11:") 7 = 0)
    by apply (strncmp_app_key (cs "pkcs11:") u NUL_not_in_scheme).
  destruct Hsel as [(cid & len & _ & Hid & _) Ht].
  split.
  - rewrite Hid. by apply (Hkeep A_id cid).
  - by apply (Hkeep A_type (cs "cert")).
Qed.

Lemma client_cert_selection_sticks_witness :
  exists r m1 m2,
    pkcs11_load_ssl_client_cert selecting_host (mkENGINE true)
      (Some [cs "CN=CA"]) preset
    = Some (r, m1)
    /\ pkcs11_parse selecting_host
         (Some (cs "pkcs11:" ++ cs "id=99;type=private")) false m1
       = Some (true, m2)
    /\ id (ctx m2) = Some (cs "02") /\ type (ctx m2) = Some (cs "cert").
Proof.
  let v := eval vm_compute in
    (pkcs11_load_ssl_client_cert selecting_host (mkENGINE true)
       (Some [cs "CN=CA"]) preset) in
  match v with
  | Some (?r, ?m1) =>
      let v2 := eval vm_compute in
        (pkcs11_parse selecting_host
           (Some (cs "pkcs11:" ++ cs "id=99;type=private")) false m1) in
      match v2 with
      | Some (_, ?m2) =>
          exists r, m1, m2;
          split; [vm_compute; reflexivity|];
          split; [vm_compute; reflexivity|];
          apply (proj2 (proj2 (client_cert_selection_sticks selecting_host
                                 (Some [cs "CN=CA"]) preset r m1 ca_cert
                                 ltac:(vm_compute; reflexivity)
                                 ltac:(reflexivity)))
                   (cs "id=99;type=private") false true m2);
          vm_compute; reflexivity
      end
  end.
Defined.

(** ** The store loader *)

Ltac sunfold :=
  unfold mbind, SM_bind, mret, SM_ret, lift, call,
    OSSL_STORE_LOADER_CTX_free in *;
  munfold.

Lemma lift_parse h uri store s :
  lift (pkcs11_parse h uri store) s
  = match pkcs11_parse h uri store (mkMachine (engine_ctx s) []) with
    | Some (b, m') =>
        Some (b, mkStoreMachine (ctx m') (trace s ++ (Engine <$> log m')))
    | None => None
    end.
Proof. reflexivity. Qed.

Lemma store_occurrences_app f (l1 l2 : list store_call) :
  store_occurrences f (l1 ++ l2)
  = (store_occurrences f l1 + store_occurrences f l2)%nat.
Proof. unfold store_occurrences. by rewrite filter_app, length_app. Qed.

Lemma store_occurrences_parse f (pre : list event) :
  (forall e, parse_call e -> f (Engine e) = false) ->
  Forall parse_call pre ->
  store_occurrences f (Engine <$> pre) = 0%nat.
Proof.
  intros Hf. unfold store_occurrences. induction 1 as [|e l He _ IH]; [done|].
  rewrite fmap_cons, filter_cons.
  destruct (decide (f (Engine e) = true)) as [Ht|]; [|done].
  rewrite (Hf e He) in Ht. done.
Qed.

Lemma parse_trace_quiet (pre : list event) :
  Forall parse_call pre ->
  store_occurrences is_store_start_session (Engine <$> pre) = 0%nat
  /\ store_occurrences is_store_end_session (Engine <$> pre) = 0%nat
  /\ store_occurrences is_unregister (Engine <$> pre) = 0%nat.
Proof.
  intros Hpre. repeat split; apply store_occurrences_parse; try done;
    by intros [].
Qed.

(** The run of [pkcs11_store_open] past its parse, on the state the parse
    left. *)
Lemma store_open_shape h e uri s r s1 :
  pkcs11_store_open h e uri s = Some (r, s1) ->
  exists pre tail,
    trace s1 = trace s ++ (Engine <$> pre) ++ tail
    /\ Forall parse_call pre
    /\ match r with
       | Some sc =>
           exists session,
             tail = [Engine (EvInitialize (module_path (engine_ctx s1)));
                     Engine EvGetSlot; Engine EvStartSession;
                     Engine (EvSearchStart session)]
             /\ pkcs11_start_session_handle h (engine_ctx s1) = Some session
             /\ sc = mkStoreCtx 0
                       (if bool_decide (label (engine_ctx s1) = None)
                           && bool_decide (id (engine_ctx s1) = None)
                        then 1 else 0)
                       0 None None session
       | None =>
           exists calls,
             tail = calls ++ [CallPKeyFree None; CallUnregisterLoader]
             /\ store_occurrences is_store_end_session calls = 0%nat
             /\ store_occurrences is_unregister calls = 0%nat
             /\ (store_occurrences is_store_start_session calls <= 1)%nat
       end.
Proof.
  unfold pkcs11_store_open. intros Hrun.
  destruct e as [e|]; [destruct (ENGINE_get_ex_data e) eqn:He|].
  2,3: sunfold; simpl in Hrun; injection Hrun as <- <-;
       exists [], [CallPKeyFree None; CallUnregisterLoader];
       (split; [by rewrite <- app_assoc|]); (split; [done|]);
       exists []; unfold store_occurrences; simpl; repeat split; lia.
  cbn [negb] in Hrun. unfold mbind at 1, SM_bind at 1 in Hrun.
  rewrite lift_parse in Hrun.
  destruct (pkcs11_parse h uri true (mkMachine (engine_ctx s) []))
    as [[b m1]|] eqn:Hparse; [|done].
  destruct (pkcs11_parse_parse_calls h uri true _ _ _ Hparse)
    as (pre & Hl1 & Hpre).
  cbn [log app] in Hl1. rewrite Hl1 in Hrun. clear Hl1.
  sunfold. simpl in Hrun.
  repeat case_match; simplify_eq/=.
  all: exists pre; eexists;
    (split; [rewrite <- ?app_assoc; simpl; reflexivity|]); (split; [done|]).
  all: try (eexists; split; [reflexivity|]; split; [done|];
            repeat match goal with
                   | H : _ && _ = _ |- _ => rewrite H
                   end; reflexivity).
  all: try (first [ exists [] ; split; [reflexivity|]
             | eexists [_]; split; [reflexivity|]
             | eexists [_; _]; split; [reflexivity|]
             | eexists [_; _; _]; split; [reflexivity|]
             | eexists [_; _; _; _]; split; [reflexivity|] ];
       unfold store_occurrences; simpl; repeat split; lia).
  all: congruence.
Qed.

(** X21.  A store that opens has started exactly one session,
    ended none and not unregistered the loader; the context it returns
    holds that session, is not at its end, and asks for names exactly when
    neither id nor label is set.  Closing it ends that session, unregisters
    the loader and returns 1. *)
Theorem store_open_then_close h e uri s sc s1 :
  pkcs11_store_open h e uri s = Some (Some sc, s1) ->
  (exists evs,
     trace s1 = trace s ++ evs
     /\ store_occurrences is_store_start_session evs = 1%nat
     /\ store_occurrences is_store_end_session evs = 0%nat
     /\ store_occurrences is_unregister evs = 0%nat)
  /\ pkcs11_start_session_handle h (engine_ctx s1) = Some (store_session sc)
  /\ pkcs11_store_eof sc = 0
  /\ (store_listflag sc = 1 <->
      id (engine_ctx s1) = None /\ label (engine_ctx s1) = None)
  /\ (store_listflag sc <> 1 -> store_listflag sc = 0)
  /\ pkcs11_store_close sc s1
     = Some (1, mkStoreMachine (engine_ctx s1)
                  (trace s1 ++ [Engine (EvEndSession (store_session sc));
                                CallPKeyFree None; CallUnregisterLoader])).
Proof.
  intros Hrun.
  destruct (store_open_shape _ _ _ _ _ _ Hrun)
    as (pre & tail & Hl & Hpre & session & -> & Hsess & ->).
  destruct (parse_trace_quiet pre Hpre) as (Q1 & Q2 & Q3).
  split; [|split; [done|split; [done|split; [|split]]]].
  - eexists. split; [exact Hl|].
    rewrite !store_occurrences_app, Q1, Q2, Q3. by repeat split.
  - cbn [store_listflag].
    destruct (id (engine_ctx s1)), (label (engine_ctx s1)); simpl;
      split; try done; by intros [? ?].
  - cbn [store_listflag]. by case_match.
  - unfold pkcs11_store_close, OSSL_STORE_LOADER_CTX_free. sunfold.
    simpl. by rewrite <- ?app_assoc.
Qed.

Lemma store_open_then_close_witness :
  exists sc s1 s2,
    pkcs11_store_open plain_host (Some (mkENGINE true))
      (Some (cs "pkcs11:type=cert")) fresh_store
    = Some (Some sc, s1)
    /\ store_listflag sc = 1
    /\ pkcs11_store_close sc s1 = Some (1, s2)
    /\ trace s2 = [Engine (EvInitialize (Some (cs "/lib/p11.so")));
                   Engine EvGetSlot; Engine EvStartSession;
                   Engine (EvSearchStart 7); Engine (EvEndSession 7);
                   CallPKeyFree None; CallUnregisterLoader].
Proof.
  let v := eval vm_compute in
    (pkcs11_store_open plain_host (Some (mkENGINE true))
       (Some (cs "pkcs11:type=cert")) fresh_store) in
  match v with
  | Some (Some ?sc, ?s1) =>
      exists sc, s1; eexists;
      split; [vm_compute; reflexivity|];
      split; [reflexivity|];
      split;
        [ apply (store_open_then_close plain_host (Some (mkENGINE true))
                   (Some (cs "pkcs11:type=cert")) fresh_store sc s1);
          vm_compute; reflexivity
        | reflexivity ]
  end.
Defined.

(** X22.  A store that fails to open frees its context, which
    unregisters the loader, and ends no session, also when it had started
    one. *)
Theorem store_open_failure_unregisters h e uri s s1 :
  pkcs11_store_open h e uri s = Some (None, s1) ->
  exists evs,
    trace s1 = trace s ++ evs ++ [CallPKeyFree None; CallUnregisterLoader]
    /\ store_occurrences is_store_end_session evs = 0%nat
    /\ store_occurrences is_unregister evs = 0%nat
    /\ (store_occurrences is_store_start_session evs <= 1)%nat.
Proof.
  intros Hrun.
  destruct (store_open_shape _ _ _ _ _ _ Hrun)
    as (pre & tail & Hl & Hpre & calls & -> & C1 & C2 & C3).
  destruct (parse_trace_quiet pre Hpre) as (Q1 & Q2 & Q3).
  exists ((Engine <$> pre) ++ calls). split.
  - by rewrite Hl, <- !app_assoc.
  - rewrite !store_occurrences_app, Q1, Q2, Q3, C1, C2. repeat split; lia.
Qed.

Lemma store_open_failure_unregisters_witness :
  exists s1,
    pkcs11_store_open (example_host (ui_answers "4321") true [])
      (Some (mkENGINE true)) (Some (cs "pkcs11:pin-source=http:x"))
      (mkStoreMachine pkcs11_ctx_new [])
    = Some (None, s1)
    /\ trace s1 = [CallPKeyFree None; CallUnregisterLoader].
Proof.
  eexists. split; [vm_compute; reflexivity|].
  destruct (store_open_failure_unregisters
              (example_host (ui_answers "4321") true [])
              (Some (mkENGINE true)) (Some (cs "pkcs11:pin-source=http:x"))
              (mkStoreMachine pkcs11_ctx_new []) _ eq_refl)
    as (evs & Hl & _).
  reflexivity.
Defined.

(** X23.  One [pkcs11_store_load] makes one search call and
    records the end-of-search flag it answers.  It returns an object
    exactly when the search is not at its end and either names are listed
    or the object found is a certificate or a public key; an object of any
    other class yields nothing although the search goes on. *)
Theorem store_load_result next c s :
  exists info c',
    pkcs11_store_load next c s
    = Some ((info, c'),
            mkStoreMachine (engine_ctx s)
              (trace s ++ [if store_listflag c =? 0
                           then Engine (EvNextObject (store_session c))
                           else CallNextIds (store_session c)]))
    /\ pkcs11_store_eof c' = answer_eof next
    /\ store_session c' = store_session c
    /\ store_listflag c' = store_listflag c
    /\ (is_Some info <->
        answer_eof next = 0
        /\ (store_listflag c <> 0
            \/ answer_class next = CKO_CERTIFICATE
            \/ answer_class next = CKO_PUBLIC_KEY))
    /\ (forall i, info = Some i ->
          i = if store_listflag c =? 0
              then if answer_class next =? CKO_PUBLIC_KEY
                   then INFO_PKEY (answer_key next)
                   else INFO_CERT (answer_cert next)
              else INFO_NAME (answer_name next) (answer_description next)).
Proof.
  unfold pkcs11_store_load, pkcs11_store_eof, pkcs11_store_load_cert,
    pkcs11_store_load_key, CKO_CERTIFICATE, CKO_PUBLIC_KEY.
  sunfold. cbn [store_eof store_session store_listflag store_cert store_key].
  destruct (store_listflag c =? 0) eqn:Hflag; cbn [negb].
  - destruct (answer_eof next =? 0) eqn:Heof;
      destruct (answer_class next =? 1) eqn:Hc1;
      destruct (answer_class next =? 2) eqn:Hc2;
      eexists _, _; (split; [reflexivity|]);
      cbn [store_eof store_session store_listflag];
      repeat split; try done; try lia;
      try (by eexists); try (intros [? ?]; lia);
      try (intros ? [= <-]; done);
      try (intros [_ [? | [? | ?]]]; lia).
  - destruct (answer_eof next =? 0) eqn:Heof;
      eexists _, _; (split; [reflexivity|]);
      cbn [store_eof store_session store_listflag];
      repeat split; try done; try lia;
      try (by eexists); try (intros [? ?]; lia);
      try (intros ? [= <-]; done);
      try (left; lia).
Qed.
